(** * GroupWise aggregation: clustering and two-level aggregation

    A shallow embedding of [src/aggregators/GroupWise.py]
    (class [GroupWiseAggregation]) and the properties of it that the
    specification states.

    Conventions of the embedding.
    - A float is an exact rational ([Q]): rounding, infinities and NaN are
      not represented.  The properties below are stated so as not to rest
      on a value that rounding could change: they speak of the structure
      of the computation, name a comparison or a quotient as the code
      computes it, or carry the bounds within which exact and rounded
      arithmetic agree as hypotheses.
    - A one-dimensional float tensor is a [list Q]; a zero-dimensional
      tensor (one element of it) is a [Q].
    - A Python [int] is a [Z]; positions produced by [range] and
      [enumerate] are [nat]s, converted where they are stored or compared.
    - A [Dict[int, nn.Module]] is an association list in insertion order,
      the order [dict.items()] iterates in.
    - Tensor objects that the object's attributes and local variables may
      share live in a store ([tensors]); an attribute holds a position in
      it, so that two names for one tensor stay two names for one tensor.
    - A method is a function from the object's state to an [outcome]: a
      normal return, a raised exception (the state keeps what was mutated
      before the raise), or exhaustion of the fuel of a [while] loop. *)

From Stdlib Require Import Reals Qreals Lra QArith Qminmax Qabs Qround ZArith Lia Lqa.
From stdpp Require Import base list strings.

Set Default Proof Using "Type".

(** ** Data *)

Abbreviation Tensor := (list Q).

(** [nn.Module], as far as the aggregator reads it: [named_parameters()]
    in declaration order, each parameter's data already flattened
    ([param.data.view(-1)]). *)
Record Module := mkModule { named_parameters : list (string * list Q) }.

(** [Client] and the inline [FakeClient]: only [p] and [id] are read. *)
Record Client := mkClient { p : Q; id : Z }.

Inductive exn :=
| TypeError
| IndexError
| KeyError
| ZeroDivisionError
| RuntimeError
| AggregatorError.

(** ** Python and torch primitives *)

(** [l[i]] on a Python list: negative positions count from the end,
    anything outside raises [IndexError]. *)
Definition py_index {A} (l : list A) (i : Z) : exn + A :=
  let n := Z.of_nat (length l) in
  let k := if (i <? 0)%Z then (n + i)%Z else i in
  if ((0 <=? k)%Z && (k <? n)%Z)%bool then
    match l !! Z.to_nat k with
    | Some x => inr x
    | None => inl IndexError
    end
  else inl IndexError.

(** [d[k]] on a dictionary: [KeyError] when the key is absent. *)
Fixpoint dict_get {A} (d : list (Z * A)) (k : Z) : exn + A :=
  match d with
  | [] => inl KeyError
  | (k', v) :: d' => if (k' =? k)%Z then inr v else dict_get d' k
  end.

(** [list(enumerate(l))]. *)
Definition enumerate {A} (l : list A) : list (nat * A) := imap (fun i x => (i, x)) l.

(** [[val for val in l if val == choice]]. *)
Definition members (l : list Z) (choice : nat) : list Z :=
  List.filter (fun val => (val =? Z.of_nat choice)%Z) l.

(** [t[indices]] for a one-dimensional tensor and a tensor of positions:
    a new tensor; [None] when a position is out of range. *)
Definition index_select (t : Tensor) (indices : list nat) : option Tensor :=
  mapM (fun i => t !! i) indices.

(** *** Cosine similarity

    [nn.CosineSimilarity(dim=0)(x1, x2)] is
    [x1.x2 / max(|x1|*|x2|, eps)] with [eps = 1e-8]; torch computes the
    denominator as [sqrt(clamp_min((x1.x1)*(x2.x2), eps*eps))].  The square
    root leaves [Q], so a similarity is kept as its numerator and the
    square of its (positive) denominator, and compared exactly
    (lemma [sim_ltb_spec] below relates the comparison to the reals).

    Later versions of torch clamp each norm on its own,
    [max(|x1|, eps) * max(|x2|, eps)], and the program computes in single
    precision.  For a tensor compared with itself the three agree, up to
    rounding far from 0.99, when its squared norm lies between [1e-8]
    and [1e18]; outside, the clamps differ or the squares overflow. *)
Record sim := mkSim { sim_num : Q; sim_den2 : Q }.

Definition eps : Q := 1 # 100000000.

Definition dot (x y : Tensor) : Q :=
  fold_right Qplus 0%Q (zip_with Qmult x y).

Definition cos (x1 x2 : Tensor) : sim :=
  let w12 := dot x1 x2 in
  let w1 := dot x1 x1 in
  let w2 := dot x2 x2 in
  {| sim_num := w12; sim_den2 := Qmax (w1 * w2) (eps * eps) |}.

(** A Python number compared with a similarity. *)
Definition sim_const (q : Q) : sim := {| sim_num := q; sim_den2 := 1 |}.

Definition Qlt_bool (x y : Q) : bool := negb (Qle_bool y x).

(** [a < b] for [a = na / sqrt da] and [b = nb / sqrt db], by signs and
    squares: [na * sqrt db < nb * sqrt da]. *)
Definition sim_ltb (a b : sim) : bool :=
  let l := (sim_num a * sim_num a * sim_den2 b)%Q in
  let r := (sim_num b * sim_num b * sim_den2 a)%Q in
  if Qle_bool 0 (sim_num a) then
    if Qle_bool (sim_num b) 0 then false else Qlt_bool l r
  else
    if Qle_bool 0 (sim_num b) then true else Qlt_bool r l.

(** ** Flattening: [_generate_weights]

<<
    X = torch.tensor([])
    for id, model in models.items():
        coords = torch.tensor([])
        for name, param in model.named_parameters():
            coords = torch.cat((coords, param.data.view(-1)))
        X = torch.cat((X, coords))
    return X
>> *)
Definition module_coords (model : Module) : Tensor :=
  fold_left (fun coords np => coords ++ snd np) (named_parameters model) [].

Definition _generate_weights (models : list (Z * Module)) : Tensor :=
  fold_left (fun X im => X ++ module_coords (snd im)) models [].

(** ** The object and its methods' outcomes *)

(** The attributes of a [GroupWiseAggregation] object.  [AggSt] is the
    state of an aggregator object (the internal and the external one);
    [cluster_centres] is [None] or the position in [tensors] of the
    centroid tensor. *)
Record GroupWiseAggregation {AggSt : Type} := mkGroupWise {
  clients : list Client;
  model : Module;
  cluster_count : nat;
  cluster_centres : option nat;
  cluster_choices : list Z;
  internalAggregator : AggSt;
  externalAggregator : AggSt;
  tensors : list Tensor;
}.
Arguments GroupWiseAggregation : clear implicits.

Inductive outcome (S A : Type) :=
| Ok (a : A) (s : S)
| Raise (e : exn) (s : S)
| OutOfFuel.
Arguments Ok {S A} a s.
Arguments Raise {S A} e s.
Arguments OutOfFuel {S A}.

Definition M (S A : Type) := S -> outcome S A.

Definition ret {S A} (a : A) : M S A := fun s => Ok a s.

Definition bind {S A B} (m : M S A) (k : A -> M S B) : M S B :=
  fun s =>
    match m s with
    | Ok a s' => k a s'
    | Raise e s' => Raise e s'
    | OutOfFuel => OutOfFuel
    end.

Definition raise {S A} (e : exn) : M S A := fun s => Raise e s.

Definition get {S} : M S S := fun s => Ok s s.

Definition put {S} (s : S) : M S unit := fun _ => Ok tt s.

Definition lift {S A} (r : exn + A) : M S A :=
  match r with
  | inl e => raise e
  | inr a => ret a
  end.

Declare Scope method_scope.
Delimit Scope method_scope with method.
Notation "x <- m ;; k" := (bind m (fun x => k))
  (at level 100, m at next level, right associativity) : method_scope.
Notation "m ;; k" := (bind m (fun _ => k))
  (at level 100, right associativity) : method_scope.
Open Scope method_scope.

(** [for x in l: body(x)]. *)
Fixpoint forM_ {S A} (l : list A) (body : A -> M S unit) : M S unit :=
  match l with
  | [] => ret tt
  | x :: l' => body x ;; forM_ l' body
  end.

(** [[f(x) for x in l]], left to right, stopping at the first raise. *)
Fixpoint comprehension {S A B} (f : A -> M S B) (l : list A) : M S (list B) :=
  match l with
  | [] => ret []
  | x :: l' => y <- f x ;; ys <- comprehension f l' ;; ret (y :: ys)
  end.

Section GroupWise.
Context {AggSt : Type}.

(** The collaborators that are not part of the source file:
    - [aggregate st clients models] is [Aggregator.aggregate] of the
      aggregator object in state [st]: the merged model and the
      aggregator's next state, or an exception; as in the
      specification's contract of a strategy, it changes nothing but
      its own state;
    - [_mergeModels mOrig mDest alphaOrig alphaDest] is the value of
      [mDest] after [Aggregator._mergeModels] has updated it in place;
    - [randint high size] is the draw of
      [torch.randint(high=high, size=(size,))]. *)
Variable aggregate : AggSt -> list Client -> list Module -> exn + (Module * AggSt).
Variable _mergeModels : Module -> Module -> Q -> Q -> Module.
Variable randint : nat -> nat -> list nat.

Abbreviation Self := (GroupWiseAggregation AggSt).
Abbreviation Method := (M Self).

(** *** Attribute assignment *)

Definition set_model (m : Module) : Method unit := fun self =>
  Ok tt (mkGroupWise AggSt (clients self) m (cluster_count self)
           (cluster_centres self) (cluster_choices self)
           (internalAggregator self) (externalAggregator self) (tensors self)).

Definition set_cluster_centres (c : option nat) : Method unit := fun self =>
  Ok tt (mkGroupWise AggSt (clients self) (model self) (cluster_count self)
           c (cluster_choices self)
           (internalAggregator self) (externalAggregator self) (tensors self)).

Definition set_cluster_choices (l : list Z) : Method unit := fun self =>
  Ok tt (mkGroupWise AggSt (clients self) (model self) (cluster_count self)
           (cluster_centres self) l
           (internalAggregator self) (externalAggregator self) (tensors self)).

Definition set_internalAggregator (a : AggSt) : Method unit := fun self =>
  Ok tt (mkGroupWise AggSt (clients self) (model self) (cluster_count self)
           (cluster_centres self) (cluster_choices self)
           a (externalAggregator self) (tensors self)).

Definition set_externalAggregator (a : AggSt) : Method unit := fun self =>
  Ok tt (mkGroupWise AggSt (clients self) (model self) (cluster_count self)
           (cluster_centres self) (cluster_choices self)
           (internalAggregator self) a (tensors self)).

Definition set_tensors (ts : list Tensor) : Method unit := fun self =>
  Ok tt (mkGroupWise AggSt (clients self) (model self) (cluster_count self)
           (cluster_centres self) (cluster_choices self)
           (internalAggregator self) (externalAggregator self) ts).

(** A new tensor object: its position in the store. *)
Definition new_tensor (t : Tensor) : Method nat :=
  self <- get ;;
  set_tensors (tensors self ++ [t]) ;;
  ret (length (tensors self)).

(** The tensor an attribute or a variable names; [TypeError] for
    [None]. *)
Definition deref (r : option nat) : Method Tensor :=
  self <- get ;;
  match r with
  | None => raise TypeError
  | Some a =>
      match tensors self !! a with
      | Some t => ret t
      | None => raise RuntimeError
      end
  end.

(** *** [__init__]

<<
  self.cluster_count = 3
  self.cluster_centres = None
  self.cluster_choices = [0]*len(self.clients)
>> *)
Definition __init__ (clients : list Client) (model : Module)
    (internal external : AggSt) : Self :=
  {| clients := clients;
     model := model;
     cluster_count := 3;
     cluster_centres := None;
     cluster_choices := replicate (length clients) 0%Z;
     internalAggregator := internal;
     externalAggregator := external;
     tensors := [] |}.

(** *** [_gen_cluster_centre]

<<
  model = self.internalAggregator.aggregate(
      [self.clients[i] for i in indices], [models[i+1] for i in indices])
  return self._generate_weights({0: model})[0]
>> *)
Definition _gen_cluster_centre (indices : list Z) (models : list (Z * Module))
    : Method Q :=
  cs <- comprehension (fun i => self <- get ;; lift (py_index (clients self) i)) indices ;;
  ms <- comprehension (fun i => lift (dict_get models (i + 1))) indices ;;
  self <- get ;;
  match aggregate (internalAggregator self) cs ms with
  | inl e => raise e
  | inr (model, agg) =>
      set_internalAggregator agg ;;
      lift (py_index (_generate_weights [(0%Z, model)]) 0)
  end.

(** [self.cluster_centres[choice] = c]: the centroid tensor is updated
    in place. *)
Definition centres_setitem (choice : nat) (c : Q) : Method unit :=
  self <- get ;;
  match cluster_centres self with
  | None => raise TypeError
  | Some r =>
      t <- deref (Some r) ;;
      if (choice <? length t)%nat
      then set_tensors (<[r := <[choice := c]> t]> (tensors self))
      else raise IndexError
  end.

(** *** [_init_cluster_centres]

<<
    if self.cluster_centres == None:
        indices = torch.randint(high=len(models_weights), size=(self.cluster_count,))
        self.cluster_centres = models_weights[indices]
    else:
        for choice in range(self.cluster_count):
            indices = [val for val in self.cluster_choices if val == choice]
            self.cluster_centres[choice] = self._gen_cluster_centre(indices, models)
>>
    [torch.randint] refuses an empty range ([high = 0]).  A tensor
    compared with [None] is not equal to it, so every call after the
    first takes the second branch. *)

(** The body of the loop over the cluster indices. *)
Definition update_centre (models : list (Z * Module)) (choice : nat) : Method unit :=
  self <- get ;;
  let indices := members (cluster_choices self) choice in
  c <- _gen_cluster_centre indices models ;;
  centres_setitem choice c.

Definition _init_cluster_centres (models_weights : Tensor)
    (models : list (Z * Module)) : Method unit :=
  self <- get ;;
  match cluster_centres self with
  | None =>
      if (length models_weights =? 0)%nat then raise RuntimeError
      else
        let indices := randint (length models_weights) (cluster_count self) in
        match index_select models_weights indices with
        | None => raise IndexError
        | Some t => r <- new_tensor t ;; set_cluster_centres (Some r)
        end
  | Some _ => forM_ (seq 0 (cluster_count self)) (update_centre models)
  end.

(** The call [self._init_cluster_centres(models_weights)] that ends the
    body of the [while] loop: the method has two required parameters
    and gets one, so Python raises [TypeError] before the method
    runs. *)
Definition _init_cluster_centres_one_argument (models_weights : Tensor)
    : Method unit :=
  raise TypeError.

(** *** [clustering]: the assignment step

<<
    for i, model in enumerate(models_weights):
        best_sim = 0
        choice = -1
        for j, cluster in enumerate(self.cluster_centres):
            sim = cos(model, cluster)
            if sim > best_sim:
                best_sim = sim
                choice = j
        self.cluster_choices[i] = choice
>>
    [model] and [cluster] are elements of one-dimensional tensors, that
    is zero-dimensional tensors; their similarity along dimension 0 is
    that of the one-element vectors. *)
Definition choose_step (model : Q) (acc : sim * Z) (jc : nat * Q) : sim * Z :=
  let sim := cos [model] [snd jc] in
  if sim_ltb (fst acc) sim then (sim, Z.of_nat (fst jc)) else acc.

Definition choose_cluster (model : Q) (centres : Tensor) : Z :=
  snd (fold_left (choose_step model) (enumerate centres) (sim_const 0, (-1)%Z)).

(** [self.cluster_choices[i] = choice] for a position [i >= 0]. *)
Definition choices_setitem (i : nat) (choice : Z) : Method unit :=
  self <- get ;;
  if (i <? length (cluster_choices self))%nat
  then set_cluster_choices (<[i := choice]> (cluster_choices self))
  else raise IndexError.

Definition assignment_step (models_weights : Tensor) : Method unit :=
  forM_ (enumerate models_weights) (fun im =>
    self <- get ;;
    centres <- deref (cluster_centres self) ;;
    choices_setitem (fst im) (choose_cluster (snd im) centres)).

(** *** [clustering]: the loop

<<
    models_weights = self._generate_weights(models)
    self._init_cluster_centres(models_weights, models)
    cos = nn.CosineSimilarity(0)
    old_centres = self.cluster_centres
    while cos(old_centres, self.cluster_centres) < 0.99:
        old_centres = self.cluster_centres
        (assignment step)
        self._init_cluster_centres(models_weights)
>>
    [old_centres] is a second name for the centroid tensor, not a copy
    of it. *)
Definition threshold : Q := 99 # 100.

(** [cos(old_centres, self.cluster_centres) < 0.99] on two tensors. *)
Definition converging (old new : Tensor) : bool :=
  sim_ltb (cos old new) (sim_const threshold).

Definition loop_test (old_centres : option nat) : Method bool :=
  x1 <- deref old_centres ;;
  self <- get ;;
  x2 <- deref (cluster_centres self) ;;
  ret (converging x1 x2).

Fixpoint clustering_loop (fuel : nat) (old_centres : option nat)
    (models_weights : Tensor) : Method unit :=
  again <- loop_test old_centres ;;
  if again : bool then
    match fuel with
    | O => fun _ => OutOfFuel
    | S fuel' =>
        self <- get ;;
        let old_centres := cluster_centres self in
        assignment_step models_weights ;;
        _init_cluster_centres_one_argument models_weights ;;
        clustering_loop fuel' old_centres models_weights
    end
  else ret tt.

Definition clustering (fuel : nat) (models : list (Z * Module)) : Method unit :=
  let models_weights := _generate_weights models in
  _init_cluster_centres models_weights models ;;
  self <- get ;;
  let old_centres := cluster_centres self in
  clustering_loop fuel old_centres models_weights.

(** *** [trainAndTest]: one round, from the trained client models on

<<
    for choice in range(self.cluster_count):
        empty_model = deepcopy(self.model)
        indices = [val for val in self.cluster_choices if val == choice]
        cluster_model_count.append(len(indices))
        comb = 0.0
        for i in indices:
            self._mergeModels(models[i+1], empty_model, self.clients[i].p, comb)
            comb = 1.0
        cluster_models.append(empty_model)
>> *)
Fixpoint merge_members (models : list (Z * Module)) (indices : list Z)
    (empty_model : Module) (comb : Q) : Method Module :=
  match indices with
  | [] => ret empty_model
  | i :: rest =>
      mOrig <- lift (dict_get models (i + 1)) ;;
      self <- get ;;
      client <- lift (py_index (clients self) i) ;;
      merge_members models rest (_mergeModels mOrig empty_model (p client) comb) 1%Q
  end.

Definition cluster_model (models : list (Z * Module)) (choice : nat)
    : Method (nat * Module) :=
  self <- get ;;
  let empty_model := model self in
  let indices := members (cluster_choices self) choice in
  merged <- merge_members models indices empty_model 0%Q ;;
  ret (length indices, merged).

(** [val / len(self.clients)]: the quotient of two Python integers,
    exact here and rounded to a double in the program; [0 / n] and
    [n / n] are the same in both. *)
Definition true_div (val len : nat) : exn + Q :=
  if (len =? 0)%nat then inl ZeroDivisionError
  else inr (inject_Z (Z.of_nat val) / inject_Z (Z.of_nat len))%Q.

(** [[FakeClient(val/len(self.clients), i)
      for (i, val) in enumerate(cluster_model_count)]]. *)
Definition fake_clients (cluster_model_count : list nat) : Method (list Client) :=
  comprehension (fun iv =>
      self <- get ;;
      w <- lift (true_div (snd iv) (length (clients self))) ;;
      ret (mkClient w (Z.of_nat (fst iv))))
    (enumerate cluster_model_count).

(** The two arguments of [self.externalAggregator.aggregate]. *)
Definition external_inputs (models : list (Z * Module))
    : Method (list Client * list Module) :=
  self <- get ;;
  per_cluster <- comprehension (cluster_model models) (seq 0 (cluster_count self)) ;;
  let cluster_model_count := map fst per_cluster in
  let cluster_models := map snd per_cluster in
  fakes <- fake_clients cluster_model_count ;;
  ret (fakes, cluster_models).

(** One iteration of the loop over rounds, given the dictionary that
    [_retrieveClientModelsDict] returned after local training. *)
Definition trainAndTest_round (fuel : nat) (models : list (Z * Module))
    : Method unit :=
  clustering fuel models ;;
  args <- external_inputs models ;;
  self <- get ;;
  match aggregate (externalAggregator self) (fst args) (snd args) with
  | inl e => raise e
  | inr (m, agg) => set_externalAggregator agg ;; set_model m
  end.

(** The rounds of [trainAndTest], one dictionary of trained models per
    round. *)
Definition trainAndTest (fuel : nat) (rounds : list (list (Z * Module)))
    : Method unit :=
  forM_ rounds (trainAndTest_round fuel).

(** *** States of a run, and what clustering leaves alone *)

(** The attributes no step of clustering assigns. *)
Definition frame (s s' : Self) : Prop :=
  clients s' = clients s
  /\ model s' = model s
  /\ cluster_count s' = cluster_count s
  /\ cluster_choices s' = cluster_choices s
  /\ externalAggregator s' = externalAggregator s.


(** The states at the start of a round: the constructed object, and
    what a completed round leaves. *)
Inductive reachable : Self -> Prop :=
| reachable_init cs m internal external :
    reachable (__init__ cs m internal external)
| reachable_round s fuel models s' :
    reachable s ->
    trainAndTest_round fuel models s = Ok tt s' ->
    reachable s'.

End GroupWise.

Arguments set_model {AggSt} m _.
Arguments set_cluster_centres {AggSt} c _.
Arguments set_cluster_choices {AggSt} l _.
Arguments set_internalAggregator {AggSt} a _.
Arguments set_externalAggregator {AggSt} a _.
Arguments set_tensors {AggSt} ts _.
Arguments new_tensor {AggSt} t _.
Arguments deref {AggSt} r _.
Arguments centres_setitem {AggSt} choice c _.
Arguments choices_setitem {AggSt} i choice _.
Arguments assignment_step {AggSt} models_weights _.
Arguments loop_test {AggSt} old_centres _.
Arguments clustering_loop {AggSt} fuel old_centres models_weights _.
Arguments _init_cluster_centres_one_argument {AggSt} models_weights _.
Arguments fake_clients {AggSt} cluster_model_count _.

(** ** The convergence rule as the specification words it

    "Compare the old and new centroid sets using per-index cosine
    similarity; if the minimum similarity across all K indices is below
    a fixed threshold (0.99), repeat."  A centroid set is a list of
    centroid vectors. *)
Definition sim_min (a b : sim) : sim := if sim_ltb b a then b else a.

Definition per_index_similarity (old new : list Tensor) : list sim :=
  zip_with cos old new.

Definition spec_repeat (old new : list Tensor) : bool :=
  match per_index_similarity old new with
  | [] => false
  | s :: sims => sim_ltb (fold_left sim_min sims s) (sim_const threshold)
  end.

(** The pairs the specification passes to the external strategy: those
    of the non-empty clusters only. *)
Definition spec_external_pairs (counts : list nat) (fakes : list Client)
    (cluster_models : list Module) : list (Client * Module) :=
  map snd (List.filter (fun x => negb (fst x =? 0)%nat)
             (zip counts (zip fakes cluster_models))).

(** ** Collaborators to run the embedding with *)

(** Modelled from the spec: [Aggregator._mergeModels] is not among the
    sources.  From its call ([mOrig], [mDest], weight of [mOrig], weight
    of what [mDest] holds) and the "plain weighted mean" of the
    specification's scenarios: every parameter of the destination that
    the origin also names becomes
    [alphaOrig * orig + alphaDest * dest]. *)
Fixpoint param_of (name : string) (ps : list (string * list Q)) : option (list Q) :=
  match ps with
  | [] => None
  | (n, d) :: ps' => if String.eqb n name then Some d else param_of name ps'
  end.

Definition weighted_merge (mOrig mDest : Module) (alphaOrig alphaDest : Q) : Module :=
  mkModule
    (map (fun np =>
            match param_of (fst np) (named_parameters mOrig) with
            | Some o =>
                (fst np, zip_with (fun x y => (alphaOrig * x + alphaDest * y)%Q) o (snd np))
            | None => np
            end)
         (named_parameters mDest)).

(** Modelled from the spec: the aggregation strategies are not among the
    sources.  The "plain weighted mean" of the specification, as an
    aggregator whose state is the model it merges into: the members are
    merged one after the other, the first with weight 0 for what the
    destination held.  On an empty input it returns its own model
    untouched. *)
Fixpoint mean_merge (cs : list Client) (ms : list Module) (dest : Module) (comb : Q)
    : Module :=
  match cs, ms with
  | c :: cs', m :: ms' => mean_merge cs' ms' (weighted_merge m dest (p c) comb) 1%Q
  | _, _ => dest
  end.

Definition mean_aggregate (own : Module) (cs : list Client) (ms : list Module)
    : exn + (Module * Module) :=
  inr (mean_merge cs ms own 0%Q, own).


(** A strategy to observe the invocations with: it keeps, as its state,
    the record of the arguments of every call, and answers with the
    first of the models it is given. *)
Definition recording_aggregate (calls : list (list Client * list Module))
    (cs : list Client) (ms : list Module)
    : exn + (Module * list (list Client * list Module)) :=
  inr (match ms with m :: _ => m | [] => mkModule [] end, calls ++ [(cs, ms)]).

(** A draw of [torch.randint] that returns the same position [k] every
    time, one of the draws it can make whenever [k < high]. *)
Definition randint_const (k : nat) (high size : nat) : list nat := replicate size k.

(** A one-parameter model holding the given values. *)
Definition module_of (values : list Q) : Module := mkModule [("weight"%string, values)].

(** ** Sums of weights *)

Definition Qsum (l : list Q) : Q := fold_right Qplus 0%Q l.

(** The cluster sizes [trainAndTest] derives the weights from. *)
Definition cluster_sizes (choices : list Z) (K : nat) : list nat :=
  map (fun c => length (members choices c)) (seq 0 K).

(** ** Auxiliary notions of the proofs, and concrete runs *)

(** The real number a similarity stands for. *)
Definition sim_value (a : sim) : R := (Q2R (sim_num a) / sqrt (Q2R (sim_den2 a)))%R.

(** The similarity of a client element to a centroid, as a real. *)
Definition similarity (model c : Q) : R := sim_value (cos [model] [c]).

(** What the inner loop has found after the centroids [seen]: no
    positive similarity yet, or the first position of the largest
    similarity, which is positive. *)
Definition best_so_far (model : Q) (seen : Tensor) (acc : sim * Z) : Prop :=
  (0 < sim_den2 (fst acc))%Q
  /\ ((snd acc = (-1)%Z /\ sim_value (fst acc) = 0%R
       /\ forall i c, seen !! i = Some c -> (similarity model c <= 0)%R)
      \/ (exists j c, snd acc = Z.of_nat j /\ seen !! j = Some c
            /\ sim_value (fst acc) = similarity model c
            /\ (0 < similarity model c)%R
            /\ (forall i c', seen !! i = Some c' ->
                  (similarity model c' <= similarity model c)%R)
            /\ (forall i c', (i < j)%nat -> seen !! i = Some c' ->
                  (similarity model c' < similarity model c)%R))).

(** What merging [m] copies of one model [mOrig], each with weight
    [alpha], leaves in the destination. *)
Fixpoint merge_copies (merge : Module -> Module -> Q -> Q -> Module)
    (mOrig : Module) (alpha : Q) (m : nat) (dest : Module) (comb : Q) : Module :=
  match m with
  | O => dest
  | S m' => merge_copies merge mOrig alpha m' (merge mOrig dest alpha comb) 1%Q
  end.

Definition total {S A} (m : M S A) : Prop := forall s, m s <> OutOfFuel.


Definition weight_of (n : nat) (size : nat) : Q :=
  (inject_Z (Z.of_nat size) / inject_Z (Z.of_nat n))%Q.

(** The number of clusters with at least one member. *)
Definition nonempty_clusters {AggSt} (s : GroupWiseAggregation AggSt) : nat :=
  length (List.filter (fun size => negb (size =? 0)%nat)
            (cluster_sizes (cluster_choices s) (cluster_count s))).

(** One client; its trained model has the single parameter value [x]. *)
Definition one_client (x : Q) : GroupWiseAggregation Module :=
  __init__ [mkClient 1 1] (module_of [x]) (module_of [7%Q]) (module_of [7%Q]).

Definition one_model (x : Q) : list (Z * Module) := [(1%Z, module_of [x])].

(** Two clients of equal stake. *)
Definition two_clients : GroupWiseAggregation Module :=
  __init__ [mkClient (1 # 2) 1; mkClient (1 # 2) 2]
    (module_of [5%Q]) (module_of [7%Q]) (module_of [7%Q]).

Definition two_models (x y : Q) : list (Z * Module) :=
  [(1%Z, module_of [x]); (2%Z, module_of [y])].

(** The object after a first round on one client whose model holds 5:
    all three centroids are the drawn element 5. *)
Definition after_first_round : GroupWiseAggregation Module :=
  {| clients := [mkClient 1 1];
     model := module_of [5%Q];
     cluster_count := 3;
     cluster_centres := Some 0%nat;
     cluster_choices := [0%Z];
     internalAggregator := module_of [7%Q];
     externalAggregator := module_of [7%Q];
     tensors := [[5; 5; 5]%Q] |}.

(** The two-client object after the clustering of its first round. *)
Definition two_clients_clustered : GroupWiseAggregation Module :=
  {| clients := [mkClient (1 # 2) 1; mkClient (1 # 2) 2];
     model := module_of [5%Q];
     cluster_count := 3;
     cluster_centres := Some 0%nat;
     cluster_choices := [0%Z; 0%Z];
     internalAggregator := module_of [7%Q];
     externalAggregator := module_of [7%Q];
     tensors := [[5; 5; 5]%Q] |}.

(** Two clients whose aggregators record their calls, before and after
    a first round with the client models 5 and 6. *)
Definition two_clients_recorded
    : GroupWiseAggregation (list (list Client * list Module)) :=
  __init__ [mkClient (1 # 2) 1; mkClient (1 # 2) 2] (module_of [5%Q]) [] [].

Definition two_clients_recorded_after_round
    : GroupWiseAggregation (list (list Client * list Module)) :=
  {| clients := [mkClient (1 # 2) 1; mkClient (1 # 2) 2];
     model := module_of [20 # 4];
     cluster_count := 3;
     cluster_centres := Some 0%nat;
     cluster_choices := [0%Z; 0%Z];
     internalAggregator := [];
     externalAggregator :=
       [([mkClient (2 # 2) 0; mkClient (0 # 2) 1; mkClient (0 # 2) 2],
         [module_of [20 # 4]; module_of [5%Q]; module_of [5%Q]])];
     tensors := [[5; 5; 5]%Q] |}.

(** Three clients with one parameter each. *)
Definition three_clients : GroupWiseAggregation Module :=
  __init__ [mkClient (1 # 3) 1; mkClient (1 # 3) 2; mkClient (1 # 3) 3]
    (module_of [0%Q]) (module_of [7%Q]) (module_of [7%Q]).

Definition three_models : list (Z * Module) :=
  [(1%Z, module_of [1%Q]); (2%Z, module_of [2%Q]); (3%Z, module_of [3%Q])].


(** ** States that differ in one attribute *)

(** Two states of the object that agree on everything except, possibly,
    [cluster_choices]. *)
Definition same_but_choices {AggSt} (s s' : GroupWiseAggregation AggSt) : Prop :=
  clients s' = clients s
  /\ model s' = model s
  /\ cluster_count s' = cluster_count s
  /\ cluster_centres s' = cluster_centres s
  /\ internalAggregator s' = internalAggregator s
  /\ externalAggregator s' = externalAggregator s
  /\ tensors s' = tensors s.


(** The centroid tensor is the only tensor object: none before the
    first initialisation, afterwards one tensor of three elements at
    position 0 of the store. *)
Definition centres_allocated {AggSt} (s : GroupWiseAggregation AggSt) : Prop :=
  (cluster_centres s = None /\ tensors s = [])
  \/ (cluster_centres s = Some 0%nat
      /\ exists t, tensors s = [t] /\ length t = 3%nat).


(** ** [src/main.py]: the clients of an experiment

    [client.Client] is not among the sources.  Of a client object
    [main.py] and the aggregators read and assign the attributes below;
    [trainDataset] is kept as the list of its labels, the only part
    [DatasetInterface.zeroLabels] touches. *)

(** The first error of [f] over [l], or all results, left to right. *)
Fixpoint mapE {E A B} (f : A -> E + B) (l : list A) : E + list B :=
  match l with
  | [] => inr []
  | x :: l' =>
      match f x with
      | inl e => inl e
      | inr y =>
          match mapE f l' with
          | inl e => inl e
          | inr ys => inr (y :: ys)
          end
      end
  end.

Module Main.

Record Client := mkClient {
  id : Z;
  n : nat;
  p : Q;
  byz : bool;
  flip : bool;
  free : bool;
  trainDataset : list Z;
}.

(** [DatasetInterface.zeroLabels] ([src/dataLoaders/dataUtils.py]):
    [self.labels = torch.zeros(len(self.labels), dtype=torch.long)]. *)
Definition zeroLabels (labels : list Z) : list Z := replicate (length labels) 0%Z.

(** [x in l] for a list of integers. *)
Definition mem (x : Z) (l : list Z) : bool := existsb (Z.eqb x) l.

Definition set_p (c : Client) (w : Q) : Client :=
  mkClient (id c) (n c) w (byz c) (flip c) (free c) (trainDataset c).

(** The body of the last loop of [__initClients]:
<<
    if client.id in config.faulty:
        client.byz = True
    if client.id in config.malicious:
        client.flip = True
        client.trainDataset.zeroLabels()
    if client.id in config.freeRiding:
        client.free = True
>> *)
Definition mark (faulty malicious freeRiding : list Z) (c : Client) : Client :=
  let c1 := if mem (id c) faulty
            then mkClient (id c) (n c) (p c) true (flip c) (free c) (trainDataset c)
            else c in
  let c2 := if mem (id c1) malicious
            then mkClient (id c1) (n c1) (p c1) (byz c1) true (free c1)
                   (zeroLabels (trainDataset c1))
            else c1 in
  if mem (id c2) freeRiding
  then mkClient (id c2) (n c2) (p c2) (byz c2) (flip c2) true (trainDataset c2)
  else c2.

Section InitClients.

(** [new_client idx trainDataset p] is the object that the constructor
    call [Client(idx=idx, trainDataset=trainDataset, ..., p=p, ...)]
    returns; the constructor is not among the sources. *)
Variable new_client : nat -> list Z -> Q -> Client.

(** [__initClients(config, trainDatasets, useDifferentialPrivacy)], with
    [usersNo = config.percUsers.size(0)] and the three lists of
    [config]:
<<
    p0 = 1 / usersNo
    clients = []
    for i in range(usersNo):
        clients.append(Client(idx=i, trainDataset=trainDatasets[i], ..., p=p0, ...))
    nTrain = sum([client.n for client in clients])
    for client in clients:
        client.p = client.n / nTrain
    for client in clients:
        (mark)
    return clients
>> *)
Definition __initClients (usersNo : nat) (trainDatasets : list (list Z))
    (faulty malicious freeRiding : list Z) : exn + list Client :=
  match true_div 1 usersNo with
  | inl e => inl e
  | inr p0 =>
      match mapE (fun i =>
                    match py_index trainDatasets (Z.of_nat i) with
                    | inl e => inl e
                    | inr ds => inr (new_client i ds p0)
                    end) (seq 0 usersNo) with
      | inl e => inl e
      | inr clients =>
          let nTrain := sum_list (map n clients) in
          match mapE (fun client =>
                        match true_div (n client) nTrain with
                        | inl e => inl e
                        | inr w => inr (set_p client w)
                        end) clients with
          | inl e => inl e
          | inr clients => inr (map (mark faulty malicious freeRiding) clients)
          end
      end
  end.

End InitClients.

End Main.


(** ** [src/dataLoaders/dataUtils.py]: a training set split among clients

    A data frame is the list of its rows.  [percUsers], a float tensor,
    is a list of rationals; for a [percUsers] whose sum is 0 torch
    produces infinities or NaN, which [Q] does not represent, and the
    properties below are stated for a positive sum. *)
Module DataUtils.

(** [ValueError], or an exception of the list above. *)
Inductive error :=
| ValueError
| Raised (e : exn).

(** [l[start:stop]] on a sequence: a negative bound counts from the
    end, and both bounds are clamped to the sequence. *)
Definition py_slice {A} (l : list A) (start stop : Z) : list A :=
  let n := Z.of_nat (length l) in
  let clamp i := if (i <? 0)%Z then Z.max (n + i) 0 else Z.min i n in
  let a := clamp start in
  let b := clamp stop in
  take (Z.to_nat (b - a)) (drop (Z.to_nat a) l).

(** [np.split(ary, indices_or_sections=indices)] for a list of
    positions: with [div_points = [0] + indices + [len(ary)]], section
    [i] is [ary[div_points[i]:div_points[i+1]]]. *)
Definition np_split {A} (ary : list A) (indices : list Z) : list (list A) :=
  zip_with (py_slice ary) (0%Z :: indices) (indices ++ [Z.of_nat (length ary)]).

Definition Zsum (l : list Z) : Z := fold_right Z.add 0%Z l.

(** [(percUsers / percUsers.sum() * len(trainDataframe)).floor()], in
    exact arithmetic; the program floors single-precision products,
    which can differ by one row where a share is close to an integer.
    Non-negative shares have non-negative floors either way. *)
Definition dataSplitCount (percUsers : list Q) (len : nat) : list Z :=
  map (fun q => Qfloor (q / Qsum percUsers * inject_Z (Z.of_nat len))) percUsers.

(** [_filterDataByLabel]: the rows whose label is one of [labels], for
    the training and for the test frame. *)
Definition _filterDataByLabel {Data} (labels : list Z)
    (trainDataframe testDataframe : list (Data * Z))
    : list (Data * Z) * list (Data * Z) :=
  (List.filter (fun row => existsb (Z.eqb (snd row)) labels) trainDataframe,
   List.filter (fun row => existsb (Z.eqb (snd row)) labels) testDataframe).

(** [_splitTrainDataIntoClientDatasets]:
<<
    percUsers = percUsers / percUsers.sum()
    dataSplitCount = (percUsers * len(trainDataframe)).floor().numpy()
    _, *dataSplitIndex = [int(sum(dataSplitCount[range(i)]))
                          for i in range(len(dataSplitCount))]
    trainDataframes = np.split(trainDataframe, indices_or_sections=dataSplitIndex)
    clientDatasets = [DatasetType(clientDataframe.reset_index(drop=True))
                      for clientDataframe in trainDataframes]
    return clientDatasets
>>
    The starred assignment needs at least one element. *)
Definition _splitTrainDataIntoClientDatasets {Row DS}
    (DatasetType : list Row -> exn + DS)
    (percUsers : list Q) (trainDataframe : list Row) : error + list DS :=
  let counts := dataSplitCount percUsers (length trainDataframe) in
  match map (fun i => Zsum (take i counts)) (seq 0 (length counts)) with
  | [] => inl ValueError
  | _ :: dataSplitIndex =>
      let trainDataframes := np_split trainDataframe dataSplitIndex in
      match mapE DatasetType trainDataframes with
      | inl e => inl (Raised e)
      | inr clientDatasets => inr clientDatasets
      end
  end.

(** [DatasetLoaderMNIST.MNISTDataset]: the stacked data and the labels.
<<
    self.data = torch.stack([torch.from_numpy(data)
                             for data in dataframe['data'].values], dim=0)
    super().__init__(dataframe['labels'].values)
>>
    [torch.stack] raises [RuntimeError] on an empty list and on tensors
    of different sizes. *)
Record MNISTDataset := mkMNISTDataset {
  data : list (list Q);
  labels : list Z;
}.

Definition new_MNISTDataset (dataframe : list (list Q * Z)) : exn + MNISTDataset :=
  match dataframe with
  | [] => inl RuntimeError
  | row :: rows =>
      if forallb (fun r => (length (fst r) =? length (fst row))%nat) rows
      then inr (mkMNISTDataset (map fst dataframe) (map snd dataframe))
      else inl RuntimeError
  end.

(** [DatasetLoaderMNIST.getDatasets], from the two frames that
    [__loadMNISTData] has loaded:
<<
    trainDataframe, testDataframe = self._filterDataByLabel(labels, *data)
    clientsDatasets = self._splitTrainDataIntoClientDatasets(
        percUsers, trainDataframe, self.MNISTDataset)
    testDataset = self.MNISTDataset(testDataframe)
    return clientsDatasets, testDataset
>> *)
Definition getDatasets (loaded : list (list Q * Z) * list (list Q * Z))
    (percUsers : list Q) (labels : list Z)
    : error + (list MNISTDataset * MNISTDataset) :=
  let frames := _filterDataByLabel labels (fst loaded) (snd loaded) in
  match _splitTrainDataIntoClientDatasets new_MNISTDataset percUsers (fst frames) with
  | inl e => inl e
  | inr clientsDatasets =>
      match new_MNISTDataset (snd frames) with
      | inl e => inl (Raised e)
      | inr testDataset => inr (clientsDatasets, testDataset)
      end
  end.

End DataUtils.


(** The running sums [a + c1], [a + c1 + c2], ... of a list of counts. *)
Fixpoint prefix_from (a : Z) (cs : list Z) : list Z :=
  match cs with
  | [] => []
  | c :: cs' => (a + c)%Z :: prefix_from (a + c) cs'
  end.


(** ** Concrete inputs for the further properties *)

(** The two-client object after a first round with the client models 5
    and 6. *)
Definition two_clients_after_round : GroupWiseAggregation Module :=
  {| clients := [mkClient (1 # 2) 1; mkClient (1 # 2) 2];
     model := module_of [160 # 32];
     cluster_count := 3;
     cluster_centres := Some 0%nat;
     cluster_choices := [0%Z; 0%Z];
     internalAggregator := module_of [7%Q];
     externalAggregator := module_of [7%Q];
     tensors := [[5; 5; 5]%Q] |}.

(** The two-client object once the centroids [1e-9] have been drawn. *)
Definition two_clients_tiny : GroupWiseAggregation Module :=
  {| clients := [mkClient (1 # 2) 1; mkClient (1 # 2) 2];
     model := module_of [5%Q];
     cluster_count := 3;
     cluster_centres := Some 0%nat;
     cluster_choices := [0%Z; 0%Z];
     internalAggregator := module_of [7%Q];
     externalAggregator := module_of [7%Q];
     tensors := [[1 # 1000000000; 1 # 1000000000; 1 # 1000000000]] |}.

(** One constructor that [new_client] can stand for: the client keeps
    its index as id and the weight it is given, counts the labels of its
    training set, and starts without any flag. *)
Definition counting_client (i : nat) (ds : list Z) (p0 : Q) : Main.Client :=
  Main.mkClient (Z.of_nat i) (length ds) p0 false false false ds.

(** Two loaded frames: five training rows and two test rows of one
    pixel each, with the labels 0, 1 and 7. *)
Definition loaded_frames : list (list Q * Z) * list (list Q * Z) :=
  ([([1%Q], 0%Z); ([2%Q], 1%Z); ([3%Q], 7%Z); ([4%Q], 0%Z); ([5%Q], 1%Z)],
   [([6%Q], 1%Z); ([7%Q], 7%Z)]).

(** A dataset type that is the frame itself. *)
Definition frame_itself (rows : list nat) : exn + list nat := inr rows.

(** * Properties *)

(** ** The method monad *)

Lemma bind_Ok {S A B} (m : M S A) (k : A -> M S B) s a s' :
  m s = Ok a s' -> bind m k s = k a s'.
Proof. unfold bind. now intros ->. Qed.

Lemma bind_Raise {S A B} (m : M S A) (k : A -> M S B) s e s' :
  m s = Raise e s' -> bind m k s = Raise e s'.
Proof. unfold bind. now intros ->. Qed.

Lemma bind_Ok_inv {S A B} (m : M S A) (k : A -> M S B) s b s2 :
  bind m k s = Ok b s2 -> exists a s1, m s = Ok a s1 /\ k a s1 = Ok b s2.
Proof.
  unfold bind. destruct (m s) as [a s1| |]; try discriminate.
  intros H. now exists a, s1.
Qed.

Lemma get_Ok_inv {S} (s a s' : S) : get s = Ok a s' -> a = s /\ s' = s.
Proof. unfold get. intros H. now inversion H. Qed.

Lemma ret_Ok_inv {S A} (a b : A) (s s' : S) : ret a s = Ok b s' -> b = a /\ s' = s.
Proof. unfold ret. intros H. now inversion H. Qed.

Lemma lift_Ok_inv {S A} (r : exn + A) (s s' : S) a :
  lift r s = Ok a s' -> r = inr a /\ s' = s.
Proof.
  destruct r as [e|x]; cbn; unfold raise, ret; intros H; inversion H; auto.
Qed.

(** A loop whose body keeps a property of the state keeps it. *)
Lemma forM__invariant {S A} (P : S -> Prop) (body : A -> M S unit) l :
  (forall x s s', body x s = Ok tt s' -> P s -> P s') ->
  forall s s', forM_ l body s = Ok tt s' -> P s -> P s'.
Proof.
  intros Hbody. induction l as [|x l IH]; intros s s' H Hs.
  - cbn in H. unfold ret in H. now inversion H; subst.
  - cbn in H. apply bind_Ok_inv in H as ([] & s1 & H1 & H2). eauto.
Qed.

(** ** Flattening *)

Lemma fold_left_app_concat {A B} (f : A -> list B) l acc :
  fold_left (fun X a => X ++ f a) l acc = acc ++ concat (map f l).
Proof.
  revert acc. induction l as [|a l IH]; intros acc; cbn.
  - now rewrite app_nil_r.
  - now rewrite IH, app_assoc.
Qed.

Lemma module_coords_concat model :
  module_coords model = concat (map snd (named_parameters model)).
Proof. unfold module_coords. now rewrite fold_left_app_concat. Qed.

Lemma generate_weights_concat models :
  _generate_weights models = concat (map (fun im => module_coords (snd im)) models).
Proof. unfold _generate_weights. now rewrite fold_left_app_concat. Qed.

Lemma concat_uniform_length {A} (ls : list (list A)) m :
  Forall (fun t => length t = m) ls -> length (concat ls) = (length ls * m)%nat.
Proof.
  induction 1 as [|t ls Ht _ IH]; cbn; [reflexivity|].
  rewrite length_app, IH, Ht. reflexivity.
Qed.

Lemma concat_uniform_lookup {A} (ls : list (list A)) m k j :
  Forall (fun t => length t = m) ls -> (j < m)%nat ->
  concat ls !! (k * m + j)%nat = ls !! k ≫= (fun t => t !! j).
Proof.
  intros Hall Hj. revert k. induction Hall as [|t ls Ht _ IH]; intros k.
  - reflexivity.
  - destruct k as [|k]; cbn.
    + rewrite lookup_app_l by lia. reflexivity.
    + rewrite lookup_app_r by lia.
      replace (m + k * m + j - length t)%nat with (k * m + j)%nat by lia.
      apply IH.
Qed.

(** C9. [_generate_weights] on a dictionary of [n] models with [m]
    parameter elements each returns one flat tensor of length [n * m],
    the models' parameters one after the other with no boundary between
    models; the element at position [k * m + j] is element [j] of model
    [k], a single scalar. *)
Theorem generate_weights_flat (models : list (Z * Module)) (n m : nat) :
  length models = n ->
  Forall (fun im => length (module_coords (snd im)) = m) models ->
  length (_generate_weights models) = (n * m)%nat
  /\ _generate_weights models
     = concat (map (fun im => concat (map snd (named_parameters (snd im)))) models)
  /\ forall k j, (j < m)%nat ->
       _generate_weights models !! (k * m + j)%nat
       = models !! k ≫= (fun im => module_coords (snd im) !! j).
Proof.
  intros Hn Hm.
  assert (Hall : Forall (fun t : list Q => length t = m)
                   (map (fun im : Z * Module => module_coords (snd im)) models)).
  { rewrite Forall_map. exact Hm. }
  rewrite generate_weights_concat. split; [|split].
  - rewrite (concat_uniform_length _ m Hall), length_map, Hn. reflexivity.
  - f_equal. apply map_ext. intros im. apply module_coords_concat.
  - intros k j Hj. rewrite (concat_uniform_lookup _ m k j Hall Hj).
    rewrite list_lookup_fmap. destruct (models !! k); reflexivity.
Qed.

Lemma generate_weights_flat_witness :
  length (_generate_weights
            [(1%Z, mkModule [("w"%string, [1; 2]%Q); ("b"%string, [3%Q])]);
             (2%Z, mkModule [("w"%string, [4; 5]%Q); ("b"%string, [6%Q])])]) = (2 * 3)%nat
  /\ _generate_weights
       [(1%Z, mkModule [("w"%string, [1; 2]%Q); ("b"%string, [3%Q])]);
        (2%Z, mkModule [("w"%string, [4; 5]%Q); ("b"%string, [6%Q])])]
     = [1; 2; 3; 4; 5; 6]%Q.
Proof.
  pose proof (generate_weights_flat
    [(1%Z, mkModule [("w"%string, [1; 2]%Q); ("b"%string, [3%Q])]);
     (2%Z, mkModule [("w"%string, [4; 5]%Q); ("b"%string, [6%Q])])] 2 3
    eq_refl) as H.
  destruct H as (Hlen & Hflat & _).
  - repeat constructor.
  - split; [exact Hlen | exact Hflat].
Defined.

(** ** Member lists *)

Lemma members_replicate (l : list Z) (c : nat) :
  members l c = replicate (count_occ Z.eq_dec l (Z.of_nat c)) (Z.of_nat c).
Proof.
  unfold members. induction l as [|v l IH]; cbn; [reflexivity|].
  destruct (Z.eqb_spec v (Z.of_nat c)) as [->|Hne].
  - destruct (Z.eq_dec (Z.of_nat c) (Z.of_nat c)); [|contradiction].
    cbn. now rewrite IH.
  - destruct (Z.eq_dec v (Z.of_nat c)); [contradiction|]. exact IH.
Qed.

Lemma members_length (l : list Z) (c : nat) :
  length (members l c) = count_occ Z.eq_dec l (Z.of_nat c).
Proof. now rewrite members_replicate, length_replicate. Qed.

Lemma comprehension_replicate {S A B} (f : A -> M S B) x y s m :
  f x s = Ok y s ->
  comprehension f (replicate m x) s = Ok (replicate m y) s.
Proof.
  intros Hf. induction m as [|m IH]; cbn; [reflexivity|].
  rewrite (bind_Ok _ _ _ _ _ Hf). rewrite (bind_Ok _ _ _ _ _ IH). reflexivity.
Qed.


(** ** Similarity of a tensor with itself *)

Lemma dot_self_nonneg c : (0 <= dot c c)%Q.
Proof.
  unfold dot. induction c as [|x c IH]; cbn; [lra|].
  assert (0 <= x * x)%Q by nra. lra.
Qed.

(** [cos(c, c) < 0.99] exactly when [c.c < 0.99 * eps]: above [eps] the
    similarity is 1, below it the clamp of the denominator takes over. *)
Lemma converging_self c :
  converging c c = negb (Qle_bool (threshold * eps) (dot c c)).
Proof.
  unfold converging, sim_ltb, cos, sim_const. cbn [sim_num sim_den2].
  pose proof (dot_self_nonneg c) as Hs. set (s := dot c c) in *.
  assert (H0 : Qle_bool 0 s = true) by now apply Qle_bool_iff.
  rewrite H0. change (Qle_bool threshold 0) with false. cbv iota.
  unfold Qlt_bool. f_equal.
  apply Bool.eq_iff_eq_true. rewrite !Qle_bool_iff.
  destruct (Q.max_spec (s * s) (eps * eps)) as [[Hlt Heq]|[Hle Heq]]; rewrite Heq;
    unfold threshold, eps in *; split; intros H; nra.
Qed.

Lemma converging_self_false c : (eps <= dot c c)%Q -> converging c c = false.
Proof.
  intros H. rewrite converging_self.
  assert (Hle : Qle_bool (threshold * eps) (dot c c) = true).
  { apply Qle_bool_iff. unfold threshold, eps in *. lra. }
  now rewrite Hle.
Qed.

(** ** Computations that cannot run out of fuel *)

Lemma total_ret {S A} (a : A) : total (S:=S) (ret a).
Proof. intros s. discriminate. Qed.

Lemma total_raise {S A} e : total (S:=S) (A:=A) (raise e).
Proof. intros s. discriminate. Qed.

Lemma total_get {S} : total (S:=S) get.
Proof. intros s. discriminate. Qed.

Lemma total_lift {S A} (r : exn + A) : total (S:=S) (lift r).
Proof. destruct r; intros s; discriminate. Qed.

Lemma total_bind {S A B} (m : M S A) (k : A -> M S B) :
  total m -> (forall a, total (k a)) -> total (bind m k).
Proof.
  intros Hm Hk s. unfold bind. specialize (Hm s).
  destruct (m s) as [a s'|e s'|]; [apply Hk|discriminate|contradiction].
Qed.

Lemma total_forM_ {S A} (l : list A) (body : A -> M S unit) :
  (forall x, total (body x)) -> total (forM_ l body).
Proof.
  intros Hb. induction l as [|x l IH]; cbn.
  - apply total_ret.
  - apply total_bind; auto.
Qed.

Lemma total_comprehension {S A B} (f : A -> M S B) (l : list A) :
  (forall x, total (f x)) -> total (comprehension f l).
Proof.
  intros Hf. induction l as [|x l IH]; cbn.
  - apply total_ret.
  - apply total_bind; [apply Hf|]. intros y.
    apply total_bind; [apply IH|]. intros ys. apply total_ret.
Qed.

Create HintDb total.
#[local] Hint Resolve total_ret total_raise total_get total_lift : total.
#[local] Hint Extern 2 (total (bind _ _)) => apply total_bind; [|intros ?] : total.
#[local] Hint Extern 2 (total (forM_ _ _)) => apply total_forM_; intros ? : total.
#[local] Hint Extern 2 (total (comprehension _ _)) =>
  apply total_comprehension; intros ? : total.
#[local] Hint Extern 3 (total (match ?x with _ => _ end)) => destruct x : total.
#[local] Hint Extern 3 (total (if ?x then _ else _)) => destruct x : total.
#[local] Hint Extern 1 (total (fun _ => Ok _ _)) => intros ? ; discriminate : total.


(** ** List comprehensions that only read the state *)

Lemma comprehension_Ok_Forall2 {S A B} (f : A -> M S B) l :
  (forall x s y s', f x s = Ok y s' -> s' = s) ->
  forall s ys s', comprehension f l s = Ok ys s' ->
    s' = s /\ Forall2 (fun x y => f x s = Ok y s) l ys.
Proof.
  intros Hf. induction l as [|x l IH]; intros s ys s' H; cbn in H.
  - apply ret_Ok_inv in H as [-> ->]. split; [reflexivity|constructor].
  - apply bind_Ok_inv in H as (y & s1 & Hy & H).
    apply bind_Ok_inv in H as (ys' & s2 & Hys & H).
    apply ret_Ok_inv in H as [-> ->].
    pose proof (Hf _ _ _ _ Hy) as ->.
    apply IH in Hys as [-> Hall]. split; [reflexivity|].
    constructor; assumption.
Qed.

(** ** Sums of cluster sizes and weights *)










Lemma true_div_inr val len w :
  true_div val len = inr w -> (0 < len)%nat /\ w = weight_of len val.
Proof.
  unfold true_div, weight_of. destruct (Nat.eqb_spec len 0); [discriminate|].
  intros [= <-]. split; [lia|reflexivity].
Qed.

Lemma Forall2_eq_map {A B} (g : A -> B) l k :
  Forall2 (fun x y => y = g x) l k -> k = map g l.
Proof. induction 1; cbn; congruence. Qed.




(** ** The comparison of similarities is that of the reals they stand for *)

Lemma div_lt_cross (na nb A B : R) :
  (0 < A)%R -> (0 < B)%R -> ((na / A < nb / B)%R <-> (na * B < nb * A)%R).
Proof.
  intros HA HB. unfold Rdiv.
  assert (HAB : (0 < A * B)%R) by (apply Rmult_lt_0_compat; assumption).
  split; intros H.
  - apply (Rmult_lt_compat_r (A * B)) in H; [|exact HAB].
    replace (na * / A * (A * B))%R with (na * B)%R in H by (field; Lra.lra).
    replace (nb * / B * (A * B))%R with (nb * A)%R in H by (field; Lra.lra).
    exact H.
  - apply (Rmult_lt_reg_r (A * B)); [exact HAB|].
    replace (na * / A * (A * B))%R with (na * B)%R by (field; Lra.lra).
    replace (nb * / B * (A * B))%R with (nb * A)%R by (field; Lra.lra).
    exact H.
Qed.

Lemma sq_lt_cross (x y : R) :
  (0 <= x)%R -> (0 <= y)%R -> ((x < y)%R <-> (x * x < y * y)%R).
Proof. intros Hx Hy. split; intros H; Lra.nra. Qed.

Lemma Qlt_bool_iff x y : Qlt_bool x y = true <-> (x < y)%Q.
Proof.
  unfold Qlt_bool. rewrite Bool.negb_true_iff, <- Bool.not_true_iff_false, Qle_bool_iff.
  split; [apply Qnot_le_lt|apply Qlt_not_le].
Qed.

Lemma sim_ltb_spec (a b : sim) :
  (0 < sim_den2 a)%Q -> (0 < sim_den2 b)%Q ->
  sim_ltb a b = true <-> (sim_value a < sim_value b)%R.
Proof.
  intros Ha Hb. unfold sim_value.
  apply Qlt_Rlt in Ha, Hb. rewrite RMicromega.Q2R_0 in Ha, Hb.
  set (na := Q2R (sim_num a)). set (nb := Q2R (sim_num b)).
  set (da := Q2R (sim_den2 a)) in *. set (db := Q2R (sim_den2 b)) in *.
  pose proof (sqrt_lt_R0 _ Ha) as HA. pose proof (sqrt_lt_R0 _ Hb) as HB.
  pose proof (sqrt_sqrt da (Rlt_le _ _ Ha)) as HA2.
  pose proof (sqrt_sqrt db (Rlt_le _ _ Hb)) as HB2.
  rewrite (div_lt_cross na nb _ _ HA HB).
  set (A := sqrt da) in *. set (B := sqrt db) in *.
  unfold sim_ltb.
  destruct (Qle_bool 0 (sim_num a)) eqn:Ea, (Qle_bool (sim_num b) 0) eqn:Eb0,
    (Qle_bool 0 (sim_num b)) eqn:Eb.
  all: try (apply Qle_bool_iff, Qle_Rle in Ea; rewrite RMicromega.Q2R_0 in Ea; fold na in Ea).
  all: try (apply Bool.not_true_iff_false in Ea; rewrite Qle_bool_iff in Ea;
            apply Qnot_le_lt, Qlt_Rlt in Ea; rewrite RMicromega.Q2R_0 in Ea; fold na in Ea).
  all: try (apply Qle_bool_iff, Qle_Rle in Eb0; rewrite RMicromega.Q2R_0 in Eb0; fold nb in Eb0).
  all: try (apply Bool.not_true_iff_false in Eb0; rewrite Qle_bool_iff in Eb0;
            apply Qnot_le_lt, Qlt_Rlt in Eb0; rewrite RMicromega.Q2R_0 in Eb0; fold nb in Eb0).
  all: try (apply Qle_bool_iff, Qle_Rle in Eb; rewrite RMicromega.Q2R_0 in Eb; fold nb in Eb).
  all: try (apply Bool.not_true_iff_false in Eb; rewrite Qle_bool_iff in Eb;
            apply Qnot_le_lt, Qlt_Rlt in Eb; rewrite RMicromega.Q2R_0 in Eb; fold nb in Eb).
  all: try rewrite Qlt_bool_iff.
  all: try (split; [discriminate|intros H; exfalso; Lra.nra]).
  all: try (split; [intros _; Lra.nra|reflexivity]).
  all: try (exfalso; Lra.lra).
  - assert (Hx : (0 <= na * B)%R) by (apply Rmult_le_pos; Lra.lra).
    assert (Hy : (0 <= nb * A)%R) by (apply Rmult_le_pos; Lra.lra).
    rewrite (sq_lt_cross _ _ Hx Hy).
    replace (na * B * (na * B))%R with (na * na * db)%R by (rewrite <- HB2; ring).
    replace (nb * A * (nb * A))%R with (nb * nb * da)%R by (rewrite <- HA2; ring).
    unfold na, nb, da, db. rewrite <- !Q2R_mult.
    split; [apply Qlt_Rlt|apply Rlt_Qlt].
  - assert (Hx : (0 <= - (nb * A))%R).
    { replace (- (nb * A))%R with ((- nb) * A)%R by ring. apply Rmult_le_pos; Lra.lra. }
    assert (Hy : (0 <= - (na * B))%R).
    { replace (- (na * B))%R with ((- na) * B)%R by ring. apply Rmult_le_pos; Lra.lra. }
    transitivity (- (nb * A) < - (na * B))%R; [|split; intros H; Lra.lra].
    rewrite (sq_lt_cross _ _ Hx Hy).
    replace (- (na * B) * - (na * B))%R with (na * na * db)%R by (rewrite <- HB2; ring).
    replace (- (nb * A) * - (nb * A))%R with (nb * nb * da)%R by (rewrite <- HA2; ring).
    unfold na, nb, da, db. rewrite <- !Q2R_mult.
    split; [apply Qlt_Rlt|apply Rlt_Qlt].
Qed.

Lemma Q2R_Qmax x y : Q2R (Qmax x y) = Rmax (Q2R x) (Q2R y).
Proof.
  destruct (Q.max_spec x y) as [[Hlt Heq]|[Hle Heq]].
  - rewrite (Qeq_eqR _ _ Heq). symmetry. apply Rmax_right.
    apply Rlt_le. now apply Qlt_Rlt.
  - rewrite (Qeq_eqR _ _ Heq). symmetry. apply Rmax_left. now apply Qle_Rle.
Qed.

Lemma sqrt_Rmax_square (u e : R) :
  (0 <= u)%R -> (0 < e)%R -> sqrt (Rmax u (e * e)) = Rmax (sqrt u) e.
Proof.
  intros Hu He. unfold Rmax at 1. destruct (Rle_dec u (e * e)) as [H|H].
  - rewrite sqrt_square by Lra.lra. symmetry. apply Rmax_right.
    rewrite <- (sqrt_square e) by Lra.lra. apply sqrt_le_1; Lra.nra.
  - symmetry. apply Rmax_left.
    rewrite <- (sqrt_square e) at 1 by Lra.lra. apply sqrt_le_1; Lra.nra.
Qed.

(** The similarity the pair stands for is torch's
    [x1.x2 / max(sqrt((x1.x1) * (x2.x2)), eps)]. *)
Lemma cos_value (x1 x2 : Tensor) :
  sim_value (cos x1 x2)
  = (Q2R (dot x1 x2)
     / Rmax (sqrt (Q2R (dot x1 x1) * Q2R (dot x2 x2))) (Q2R eps))%R.
Proof.
  unfold sim_value, cos. cbn [sim_num sim_den2].
  rewrite Q2R_Qmax, !Q2R_mult. f_equal. apply sqrt_Rmax_square.
  - apply Rmult_le_pos; rewrite <- RMicromega.Q2R_0; apply Qle_Rle, dot_self_nonneg.
  - rewrite <- RMicromega.Q2R_0. now apply Qlt_Rlt.
Qed.

Lemma sim_const_value (q : Q) : sim_value (sim_const q) = Q2R q.
Proof.
  unfold sim_value, sim_const. cbn [sim_num sim_den2].
  rewrite RMicromega.Q2R_1, sqrt_1. field.
Qed.

Lemma cos_den2_pos x1 x2 : (0 < sim_den2 (cos x1 x2))%Q.
Proof.
  unfold cos. cbn [sim_den2]. apply Q.max_lt_iff. right. reflexivity.
Qed.

(** ** The assignment of one client *)

Lemma best_so_far_step model seen acc x :
  best_so_far model seen acc ->
  best_so_far model (seen ++ [x]) (choose_step model acc (length seen, x)).
Proof.
  intros [Hden Hacc]. unfold choose_step. cbn [fst snd].
  pose proof (sim_ltb_spec (fst acc) (cos [model] [x]) Hden (cos_den2_pos _ _)) as Hlt.
  fold (similarity model x) in Hlt.
  assert (Hlook : forall i c, (seen ++ [x]) !! i = Some c ->
            seen !! i = Some c \/ (i = length seen /\ c = x)).
  { intros i c Hi. apply lookup_app_Some in Hi as [Hi|[Hge Hi]]; [now left|right].
    apply list_lookup_singleton_Some in Hi as [Hi ->]. split; [lia|reflexivity]. }
  destruct (sim_ltb (fst acc) (cos [model] [x])) eqn:E.
  - apply proj1 in Hlt. specialize (Hlt eq_refl).
    split; [apply cos_den2_pos|]. right. exists (length seen), x. cbn [fst snd].
    split; [reflexivity|]. split; [apply list_lookup_middle; reflexivity|].
    split; [reflexivity|].
    destruct Hacc as [(Hc & Hv & Hall)|(j & c & Hc & Hj & Hv & Hpos & Hmax & Hfirst)].
    + rewrite Hv in Hlt. split; [exact Hlt|]. split.
      * intros i c' Hi. apply Hlook in Hi as [Hi|[_ ->]]; [|Lra.lra].
        specialize (Hall _ _ Hi). Lra.lra.
      * intros i c' Hlti Hi. apply Hlook in Hi as [Hi|[-> _]]; [|lia].
        specialize (Hall _ _ Hi). Lra.lra.
    + rewrite Hv in Hlt. split; [Lra.lra|]. split.
      * intros i c' Hi. apply Hlook in Hi as [Hi|[_ ->]]; [|Lra.lra].
        specialize (Hmax _ _ Hi). Lra.lra.
      * intros i c' Hlti Hi. apply Hlook in Hi as [Hi|[-> _]]; [|lia].
        specialize (Hmax _ _ Hi). Lra.lra.
  - assert (Hge : (similarity model x <= sim_value (fst acc))%R).
    { apply Rnot_lt_le. intros H. apply Hlt in H. congruence. }
    split; [exact Hden|].
    destruct Hacc as [(Hc & Hv & Hall)|(j & c & Hc & Hj & Hv & Hpos & Hmax & Hfirst)].
    + left. split; [exact Hc|]. split; [exact Hv|].
      intros i c' Hi. apply Hlook in Hi as [Hi|[_ ->]]; [eauto|Lra.lra].
    + right. exists j, c. split; [exact Hc|].
      split; [apply lookup_app_l_Some; exact Hj|]. split; [exact Hv|].
      split; [exact Hpos|]. split.
      * intros i c' Hi. apply Hlook in Hi as [Hi|[_ ->]]; [eauto|Lra.lra].
      * intros i c' Hlti Hi. apply Hlook in Hi as [Hi|[-> _]]; [eauto|].
        apply lookup_lt_Some in Hj. lia.
Qed.

Lemma best_so_far_fold model rest seen acc :
  best_so_far model seen acc ->
  best_so_far model (seen ++ rest)
    (fold_left (choose_step model)
       (imap (fun i x => ((length seen + i)%nat, x)) rest) acc).
Proof.
  revert seen acc. induction rest as [|x rest IH]; intros seen acc Hacc.
  - cbn. now rewrite app_nil_r.
  - cbn [imap fold_left]. rewrite Nat.add_0_r.
    replace (seen ++ x :: rest) with ((seen ++ [x]) ++ rest)
      by (now rewrite <- app_assoc).
    pose proof (IH (seen ++ [x]) _ (best_so_far_step model seen acc x Hacc)) as H.
    erewrite imap_ext; [exact H|].
    intros i y _. cbn. rewrite length_app. cbn. f_equal. lia.
Qed.

(** The assignment of one client: [-1] when no centroid has a positive
    similarity to it; otherwise the first position among the centroids
    of largest similarity. *)
Lemma choose_cluster_spec (model : Q) (centres : Tensor) :
  (choose_cluster model centres = (-1)%Z
   /\ forall i c, centres !! i = Some c -> (similarity model c <= 0)%R)
  \/ (exists j c,
        choose_cluster model centres = Z.of_nat j
        /\ centres !! j = Some c
        /\ (0 < similarity model c)%R
        /\ (forall i c', centres !! i = Some c' ->
              (similarity model c' <= similarity model c)%R)
        /\ (forall i c', (i < j)%nat -> centres !! i = Some c' ->
              (similarity model c' < similarity model c)%R)).
Proof.
  assert (H0 : best_so_far model [] (sim_const 0, (-1)%Z)).
  { split; [reflexivity|]. left. split; [reflexivity|]. split.
    - cbn [fst]. rewrite sim_const_value. apply RMicromega.Q2R_0.
    - intros i c Hi. discriminate. }
  pose proof (best_so_far_fold model centres [] _ H0) as [_ H].
  cbn [app length Nat.add] in H. fold (enumerate centres) in H.
  unfold choose_cluster.
  destruct H as [(Hc & _ & Hall)|(j & c & Hc & Hj & _ & Hpos & Hmax & Hfirst)].
  - left. auto.
  - right. exists j, c. auto.
Qed.


Lemma positive_similarity (model c : Q) :
  sim_ltb (sim_const 0) (cos [model] [c]) = true <-> (0 < similarity model c)%R.
Proof.
  rewrite (sim_ltb_spec _ _ (eq_refl : (0 < sim_den2 (sim_const 0))%Q)
             (cos_den2_pos [model] [c])).
  rewrite sim_const_value, RMicromega.Q2R_0. reflexivity.
Qed.

(** X10. The choice computed for one element in the loop of
    [clustering] is [-1] when the comparison [sim > best_sim] succeeds
    against the initial [best_sim = 0] for no centroid; otherwise it is
    the position of one of the centroids, and for that centroid the
    comparison against 0 succeeds. *)
Theorem choose_cluster_none_or_positive (model : Q) (centres : Tensor) :
  (choose_cluster model centres = (-1)%Z
   /\ Forall (fun c => sim_ltb (sim_const 0) (cos [model] [c]) = false) centres)
  \/ (exists j c,
        choose_cluster model centres = Z.of_nat j
        /\ centres !! j = Some c
        /\ sim_ltb (sim_const 0) (cos [model] [c]) = true).
Proof.
  destruct (choose_cluster_spec model centres)
    as [[Hnone Hall]|(j & c & Hj & Hc & Hpos & _)].
  - left. split; [exact Hnone|]. apply Forall_lookup. intros i c Hc.
    apply Bool.not_true_iff_false. rewrite positive_similarity.
    specialize (Hall i c Hc). Lra.lra.
  - right. exists j, c. split; [exact Hj|]. split; [exact Hc|].
    now apply positive_similarity.
Qed.

(** The loop test on two tensors is torch's inequality
    [x1.x2 / max(sqrt((x1.x1) * (x2.x2)), eps) < 0.99]. *)
Lemma converging_spec (x1 x2 : Tensor) :
  converging x1 x2 = true
  <-> (Q2R (dot x1 x2)
       / Rmax (sqrt (Q2R (dot x1 x1) * Q2R (dot x2 x2))) (Q2R eps)
       < Q2R (99 # 100))%R.
Proof.
  unfold converging.
  rewrite (sim_ltb_spec _ _ (cos_den2_pos x1 x2)) by reflexivity.
  now rewrite cos_value, sim_const_value.
Qed.

Section Properties.
Context {AggSt : Type}.
Variable aggregate : AggSt -> list Client -> list Module -> exn + (Module * AggSt).
Variable _mergeModels : Module -> Module -> Q -> Q -> Module.
Variable randint : nat -> nat -> list nat.

Abbreviation Self := (GroupWiseAggregation AggSt).

Lemma merge_members_replicate models (self : Self) c mc cl m dest comb :
  dict_get models (c + 1) = inr mc ->
  py_index (clients self) c = inr cl ->
  merge_members _mergeModels models (replicate m c) dest comb self
  = Ok (merge_copies _mergeModels mc (p cl) m dest comb) self.
Proof.
  intros Hmc Hcl. revert dest comb.
  induction m as [|m IH]; intros dest comb; cbn; [reflexivity|].
  rewrite Hmc. cbv [bind lift get ret raise]. rewrite Hcl. apply IH.
Qed.

(** C10. The member list of cluster [c] is the value [c] itself, once
    per client assigned to [c] ([m] times).  So the cluster
    representative built in [trainAndTest] is [m] merges of the one model
    at key [c + 1] with the weight of the client at position [c], and the
    centroid recomputation hands the internal aggregator [m] copies of
    that client and of that model, not the [m] member clients' models. *)
Theorem member_list_is_copies_of_cluster_index
    (self : Self) (models : list (Z * Module)) (c : nat) (mc : Module) (cl : Client) :
  dict_get models (Z.of_nat c + 1) = inr mc ->
  py_index (clients self) (Z.of_nat c) = inr cl ->
  let m := count_occ Z.eq_dec (cluster_choices self) (Z.of_nat c) in
  members (cluster_choices self) c = replicate m (Z.of_nat c)
  /\ cluster_model _mergeModels models c self
     = Ok (m, merge_copies _mergeModels mc (p cl) m (model self) 0%Q) self
  /\ _gen_cluster_centre aggregate (members (cluster_choices self) c) models self
     = match aggregate (internalAggregator self) (replicate m cl) (replicate m mc) with
       | inl e => Raise e self
       | inr (model, agg) =>
           (set_internalAggregator agg ;;
            lift (py_index (_generate_weights [(0%Z, model)]) 0)) self
       end.
Proof.
  intros Hmc Hcl m. split; [apply members_replicate|split].
  - unfold cluster_model. unfold bind at 1. cbn.
    rewrite members_replicate. fold m.
    rewrite (bind_Ok _ _ _ _ _ (merge_members_replicate models self _ mc cl m _ _ Hmc Hcl)).
    cbn. rewrite length_replicate. reflexivity.
  - unfold _gen_cluster_centre. rewrite members_replicate. fold m.
    erewrite bind_Ok; cycle 1.
    { apply (comprehension_replicate _ (Z.of_nat c) cl).
      unfold bind; cbn. rewrite Hcl. reflexivity. }
    erewrite bind_Ok; cycle 1.
    { apply (comprehension_replicate _ (Z.of_nat c) mc).
      rewrite Hmc. reflexivity. }
    unfold bind at 1. cbn.
    destruct (aggregate (internalAggregator self) (replicate m cl) (replicate m mc))
      as [e|[mdl agg]]; reflexivity.
Qed.

(** ** Termination of the clustering loop *)

Lemma total_setters :
  (forall m, total (set_model (AggSt:=AggSt) m))
  /\ (forall c, total (set_cluster_centres (AggSt:=AggSt) c))
  /\ (forall l, total (set_cluster_choices (AggSt:=AggSt) l))
  /\ (forall a, total (set_internalAggregator (AggSt:=AggSt) a))
  /\ (forall a, total (set_externalAggregator (AggSt:=AggSt) a))
  /\ (forall ts, total (set_tensors (AggSt:=AggSt) ts)).
Proof. repeat split; intros ? ?; discriminate. Qed.

Lemma total_deref r : total (deref (AggSt:=AggSt) r).
Proof.
  intros s. unfold deref, bind, get. destruct r as [a|]; [|discriminate].
  destruct (tensors s !! a); discriminate.
Qed.

Lemma total_new_tensor t : total (new_tensor (AggSt:=AggSt) t).
Proof. intros s. discriminate. Qed.

Lemma total_centres_setitem choice c : total (centres_setitem (AggSt:=AggSt) choice c).
Proof.
  intros s. unfold centres_setitem, bind, get.
  destruct (cluster_centres s) as [r|]; [|discriminate].
  pose proof (total_deref (Some r) s) as Hd.
  destruct (deref (Some r) s) as [t s'|e s'|]; [|discriminate|contradiction].
  destruct (choice <? length t)%nat; discriminate.
Qed.

Lemma total_choices_setitem i choice : total (choices_setitem (AggSt:=AggSt) i choice).
Proof.
  intros s. unfold choices_setitem, bind, get.
  destruct (i <? length (cluster_choices s))%nat; discriminate.
Qed.

Lemma total_gen_cluster_centre indices models :
  total (_gen_cluster_centre aggregate indices models).
Proof.
  unfold _gen_cluster_centre.
  apply total_bind; [apply total_comprehension; intros i; auto with total|intros cs].
  apply total_bind; [apply total_comprehension; intros i; auto with total|intros ms].
  apply total_bind; [apply total_get|intros self].
  destruct (aggregate (internalAggregator self) cs ms) as [e|[mdl agg]];
    [apply total_raise|].
  apply total_bind; [apply total_setters|intros _; apply total_lift].
Qed.

Lemma total_init_cluster_centres mw models :
  total (_init_cluster_centres aggregate randint mw models).
Proof.
  unfold _init_cluster_centres.
  apply total_bind; [apply total_get|intros self].
  destruct (cluster_centres self).
  - apply total_forM_. intros choice. unfold update_centre.
    apply total_bind; [apply total_get|intros self'].
    apply total_bind; [apply total_gen_cluster_centre|intros c].
    apply total_centres_setitem.
  - destruct (length mw =? 0)%nat; [apply total_raise|].
    destruct (index_select mw _); [|apply total_raise].
    apply total_bind; [apply total_new_tensor|intros r]. apply total_setters.
Qed.

Lemma total_assignment_step mw : total (assignment_step (AggSt:=AggSt) mw).
Proof.
  unfold assignment_step. apply total_forM_. intros im.
  apply total_bind; [apply total_get|intros self].
  apply total_bind; [apply total_deref|intros centres].
  apply total_choices_setitem.
Qed.

Lemma total_loop_test old : total (loop_test (AggSt:=AggSt) old).
Proof.
  unfold loop_test.
  apply total_bind; [apply total_deref|intros x1].
  apply total_bind; [apply total_get|intros self].
  apply total_bind; [apply total_deref|intros x2]. apply total_ret.
Qed.

(** One unfolding of the loop with fuel left: the test, and when it
    holds the assignment step followed by the [TypeError] of the
    one-argument call.  The rest of the fuel is never used. *)
Lemma clustering_loop_unfold fuel old mw (self : Self) :
  clustering_loop (S fuel) old mw self
  = match loop_test old self with
    | Ok true s1 =>
        match assignment_step mw s1 with
        | Ok _ s2 => Raise TypeError s2
        | Raise e s2 => Raise e s2
        | OutOfFuel => OutOfFuel
        end
    | Ok false s1 => Ok tt s1
    | Raise e s1 => Raise e s1
    | OutOfFuel => OutOfFuel
    end.
Proof.
  cbn [clustering_loop]. unfold bind at 1.
  destruct (loop_test old self) as [[|] s1|e s1|]; try reflexivity.
Qed.

Lemma clustering_loop_fuel fuel old mw (self : Self) :
  clustering_loop (S fuel) old mw self = clustering_loop 1 old mw self.
Proof. now rewrite !clustering_loop_unfold. Qed.

Lemma clustering_loop_total fuel old mw (self : Self) :
  clustering_loop (S fuel) old mw self <> OutOfFuel.
Proof.
  rewrite clustering_loop_unfold.
  pose proof (total_loop_test old self) as Ht.
  destruct (loop_test old self) as [[|] s1|e s1|]; try discriminate; [|contradiction].
  pose proof (total_assignment_step mw s1) as Ha.
  destruct (assignment_step mw s1); try discriminate. contradiction.
Qed.

(** C2. With any iteration cap [maxIterations >= 1] as the fuel of the
    loop, [clustering] ends, by returning or by raising, without
    exhausting the cap: the body of the loop is entered at most once,
    since it ends in a call that always raises, and more fuel than one
    iteration changes nothing. *)
Theorem clustering_terminates_within_cap
    (maxIterations : nat) (models : list (Z * Module)) (self : Self) :
  (1 <= maxIterations)%nat ->
  clustering aggregate randint maxIterations models self <> OutOfFuel
  /\ clustering aggregate randint maxIterations models self
     = clustering aggregate randint 1 models self.
Proof.
  intros Hcap. destruct maxIterations as [|fuel]; [lia|].
  unfold clustering, bind.
  pose proof (total_init_cluster_centres (_generate_weights models) models self) as Hi.
  destruct (_init_cluster_centres aggregate randint (_generate_weights models) models self)
    as [[] s1|e s1|]; [|split; [discriminate|reflexivity]|contradiction].
  cbn [get]. split.
  - apply clustering_loop_total.
  - apply clustering_loop_fuel.
Qed.

(** ** What the steps leave alone *)

Ltac setter_inv H :=
  cbv [set_model set_cluster_centres set_cluster_choices
       set_internalAggregator set_externalAggregator set_tensors] in H;
  inversion H; subst; clear H.

Ltac ok_inv :=
  repeat match goal with
  | H : bind _ _ _ = Ok _ _ |- _ =>
      let a := fresh "a" in let s := fresh "s" in
      let H1 := fresh "Hstep" in
      apply bind_Ok_inv in H as (a & s & H1 & H)
  | H : get _ = Ok _ _ |- _ => apply get_Ok_inv in H as [-> ->]
  | H : ret _ _ = Ok ?b _ |- _ => apply ret_Ok_inv in H as [? ->]; try subst b
  | H : raise _ _ = Ok _ _ |- _ => discriminate H
  | H : lift _ _ = Ok _ _ |- _ => apply lift_Ok_inv in H as [? ->]
  | H : Raise _ _ = Ok _ _ |- _ => discriminate H
  | H : OutOfFuel = Ok _ _ |- _ => discriminate H
  | H : set_model _ _ = Ok _ _ |- _ => setter_inv H
  | H : set_cluster_centres _ _ = Ok _ _ |- _ => setter_inv H
  | H : set_cluster_choices _ _ = Ok _ _ |- _ => setter_inv H
  | H : set_internalAggregator _ _ = Ok _ _ |- _ => setter_inv H
  | H : set_externalAggregator _ _ = Ok _ _ |- _ => setter_inv H
  | H : set_tensors _ _ = Ok _ _ |- _ => setter_inv H
  end.

Lemma frame_refl (s : Self) : frame s s.
Proof. now repeat split. Qed.

Lemma frame_trans (s1 s2 s3 : Self) : frame s1 s2 -> frame s2 s3 -> frame s1 s3.
Proof.
  intros (?&?&?&?&?) (?&?&?&?&?). repeat split; congruence.
Qed.

Lemma deref_Ok_inv r (s s' : Self) t :
  deref r s = Ok t s' ->
  s' = s /\ exists a, r = Some a /\ tensors s !! a = Some t.
Proof.
  unfold deref, bind, get. destruct r as [a|]; [|discriminate].
  destruct (tensors s !! a) as [t'|] eqn:E; [|discriminate].
  intros H. inversion H; subst. eauto.
Qed.

Lemma comprehension_Ok_state {S A B} (f : A -> M S B) l :
  (forall x s y s', f x s = Ok y s' -> s' = s) ->
  forall s ys s', comprehension f l s = Ok ys s' -> s' = s.
Proof.
  intros Hf. induction l as [|x l IH]; intros s ys s' H; cbn in H.
  - now inversion H.
  - ok_inv. apply IH in Hstep0. apply Hf in Hstep. congruence.
Qed.

Lemma gen_cluster_centre_frame indices models (s s' : Self) c :
  _gen_cluster_centre aggregate indices models s = Ok c s' ->
  frame s s' /\ cluster_centres s' = cluster_centres s /\ tensors s' = tensors s.
Proof.
  unfold _gen_cluster_centre. intros H. ok_inv.
  apply comprehension_Ok_state in Hstep; cycle 1.
  { intros ? ? ? ? Hx. now ok_inv. }
  apply comprehension_Ok_state in Hstep0; cycle 1.
  { intros ? ? ? ? Hx. now ok_inv. }
  subst.
  destruct (aggregate (internalAggregator s) a a0) as [e|[mdl agg]]; [discriminate|].
  ok_inv. cbn. repeat split.
Qed.

Lemma centres_setitem_Ok_inv choice c (s s' : Self) :
  centres_setitem choice c s = Ok tt s' ->
  exists r t, cluster_centres s = Some r /\ tensors s !! r = Some t
    /\ (choice < length t)%nat
    /\ tensors s' = <[r := <[choice := c]> t]> (tensors s)
    /\ cluster_centres s' = Some r
    /\ internalAggregator s' = internalAggregator s
    /\ frame s s'.
Proof.
  unfold centres_setitem. intros H. ok_inv.
  destruct (cluster_centres s) as [r|] eqn:Er; [|discriminate].
  ok_inv. apply deref_Ok_inv in Hstep as (-> & r' & [= <-] & Ht).
  destruct (Nat.ltb_spec choice (length a)); [|discriminate].
  ok_inv. cbn. exists r, a. repeat split; auto.
Qed.

Lemma init_cluster_centres_frame mw models (s s' : Self) :
  _init_cluster_centres aggregate randint mw models s = Ok tt s' -> frame s s'.
Proof.
  unfold _init_cluster_centres. intros H. ok_inv.
  destruct (cluster_centres s) as [r|].
  - eapply (forM__invariant (frame s)); [|exact H|apply frame_refl].
    intros choice s1 s2 Hbody Hs1. unfold update_centre in Hbody. ok_inv.
    apply gen_cluster_centre_frame in Hstep0 as (Hf & _ & _).
    apply centres_setitem_Ok_inv in Hbody as (_ & _ & _ & _ & _ & _ & _ & _ & Hf').
    eauto using frame_trans.
  - destruct (length mw =? 0)%nat; [discriminate|].
    destruct (index_select mw _); [|discriminate].
    ok_inv. unfold new_tensor in Hstep. ok_inv. cbn. repeat split.
Qed.

(** ** The loop test inside [clustering] *)

(** [old_centres] names the very tensor [self.cluster_centres] names, so
    the first test of the loop compares the centroid tensor with
    itself. *)
Lemma loop_test_same_tensor (s : Self) c :
  deref (cluster_centres s) s = Ok c s ->
  loop_test (cluster_centres s) s = Ok (converging c c) s.
Proof.
  intros H. unfold loop_test.
  rewrite (bind_Ok _ _ _ _ _ H). unfold bind at 1. cbn [get].
  rewrite (bind_Ok _ _ _ _ _ H). reflexivity.
Qed.

Lemma clustering_after_init fuel models (s s1 : Self) c :
  _init_cluster_centres aggregate randint (_generate_weights models) models s = Ok tt s1 ->
  deref (cluster_centres s1) s1 = Ok c s1 ->
  clustering aggregate randint fuel models s
  = if converging c c
    then match fuel with
         | O => OutOfFuel
         | S _ =>
             match assignment_step (_generate_weights models) s1 with
             | Ok _ s2 => Raise TypeError s2
             | Raise e s2 => Raise e s2
             | OutOfFuel => OutOfFuel
             end
         end
    else Ok tt s1.
Proof.
  intros Hinit Hc. unfold clustering.
  rewrite (bind_Ok _ _ _ _ _ Hinit). unfold bind at 1. cbn [get].
  destruct fuel as [|fuel].
  - cbn [clustering_loop]. rewrite (bind_Ok _ _ _ _ _ (loop_test_same_tensor _ _ Hc)).
    destruct (converging c c); reflexivity.
  - rewrite clustering_loop_unfold, (loop_test_same_tensor _ _ Hc).
    destruct (converging c c); reflexivity.
Qed.

(** C8 (amended). When the centroid tensor [c] that the loop tests has
    a squared norm between [1e-8] and [1e18], the body of the loop is
    not entered: [old_centres] is the same tensor as
    [self.cluster_centres], the similarity of [c] with itself is 1, not
    below 0.99, and [clustering] returns with [cluster_choices] as it
    was before the call.  The lower bound keeps the denominator of the
    similarity clear of its clamp, wherever the clamp is applied; the
    upper bound keeps the single-precision computation of the program,
    which exact arithmetic stands for here, clear of overflow, and is
    not used otherwise. *)
Theorem no_iteration_when_norm_is_moderate
    (fuel : nat) (models : list (Z * Module)) (self self1 : Self) (c : Tensor) :
  _init_cluster_centres aggregate randint (_generate_weights models) models self
    = Ok tt self1 ->
  deref (cluster_centres self1) self1 = Ok c self1 ->
  (eps <= dot c c)%Q ->
  (dot c c <= 1000000000000000000)%Q ->
  clustering aggregate randint fuel models self = Ok tt self1
  /\ cluster_choices self1 = cluster_choices self.
Proof.
  intros Hinit Hc Hnorm _. split.
  - rewrite (clustering_after_init fuel models self self1 c Hinit Hc).
    now rewrite (converging_self_false c Hnorm).
  - apply init_cluster_centres_frame in Hinit. apply Hinit.
Qed.

(** ** Initial centroids *)

(** C7 (amended). With no prior centroids, initialization takes the
    [K] positions that [torch.randint] draws from
    [[0, len(models_weights))] (independently of each other, so a
    position may repeat) and makes the elements of the flattened weight
    tensor at those positions the [K] initial centroids, in a new
    tensor. *)
Theorem initial_centres_are_drawn_elements
    (models_weights : Tensor) (models : list (Z * Module)) (self : Self) :
  cluster_centres self = None ->
  (0 < length models_weights)%nat ->
  length (randint (length models_weights) (cluster_count self)) = cluster_count self ->
  Forall (fun i => (i < length models_weights)%nat)
    (randint (length models_weights) (cluster_count self)) ->
  exists (centres : Tensor) (self' : Self),
    _init_cluster_centres aggregate randint models_weights models self = Ok tt self'
    /\ cluster_centres self' = Some (length (tensors self))
    /\ tensors self' = tensors self ++ [centres]
    /\ frame self self'
    /\ length centres = cluster_count self
    /\ Forall2 (fun i c => models_weights !! i = Some c)
         (randint (length models_weights) (cluster_count self)) centres
    /\ Forall (fun c => c ∈ models_weights) centres.
Proof.
  intros Hnone Hpos Hlen Hrange.
  set (indices := randint (length models_weights) (cluster_count self)) in *.
  assert (Hsel : is_Some (index_select models_weights indices)).
  { unfold index_select. apply mapM_is_Some.
    eapply Forall_impl; [exact Hrange|]. intros i Hi. cbn.
    now apply lookup_lt_is_Some. }
  destruct Hsel as [centres Hsel].
  assert (HF2 : Forall2 (fun i c => models_weights !! i = Some c) indices centres).
  { now apply mapM_Some in Hsel. }
  exists centres.
  eexists. unfold _init_cluster_centres, bind at 1. cbn [get]. rewrite Hnone.
  destruct (Nat.eqb_spec (length models_weights) 0) as [E|_]; [lia|].
  fold indices. rewrite Hsel. cbn.
  repeat split.
  - rewrite <- (Forall2_length _ _ _ HF2). exact Hlen.
  - exact HF2.
  - clear -HF2. induction HF2 as [|i c idxs cs Hic _ IH]; constructor; [|exact IH].
    eapply list_elem_of_lookup_2. exact Hic.
Qed.

(** ** The arguments of the external aggregation *)

Lemma merge_members_Ok_state models indices dest comb (s s' : Self) m :
  merge_members _mergeModels models indices dest comb s = Ok m s' -> s' = s.
Proof.
  revert dest comb. induction indices as [|i rest IH]; intros dest comb H; cbn in H.
  - now apply ret_Ok_inv in H.
  - ok_inv. eauto.
Qed.

Lemma cluster_model_Ok models c (s s' : Self) y :
  cluster_model _mergeModels models c s = Ok y s' ->
  s' = s
  /\ fst y = length (members (cluster_choices s) c)
  /\ (members (cluster_choices s) c = [] -> snd y = model s).
Proof.
  unfold cluster_model. intros H. ok_inv.
  pose proof (merge_members_Ok_state _ _ _ _ _ _ _ Hstep0) as ->.
  repeat split. intros Hempty. rewrite Hempty in Hstep0. cbn in Hstep0.
  now apply ret_Ok_inv in Hstep0.
Qed.

Lemma fake_client_Ok (iv : nat * nat) (s s' : Self) cl :
  (self <- get ;;
   w <- lift (true_div (snd iv) (length (clients self))) ;;
   ret (mkClient w (Z.of_nat (fst iv)))) s = Ok cl s' ->
  s' = s /\ (0 < length (clients s))%nat
  /\ cl = mkClient (weight_of (length (clients s)) (snd iv)) (Z.of_nat (fst iv)).
Proof.
  intros H. ok_inv.
  match goal with
  | E : true_div _ _ = inr _ |- _ => apply true_div_inr in E as [? ->]
  end.
  auto.
Qed.

Lemma fake_clients_Ok counts (s s' : Self) fakes :
  fake_clients counts s = Ok fakes s' ->
  s' = s
  /\ (counts <> [] -> (0 < length (clients s))%nat)
  /\ fakes = map (fun iv => mkClient (weight_of (length (clients s)) (snd iv))
                              (Z.of_nat (fst iv)))
               (enumerate counts).
Proof.
  unfold fake_clients. intros H.
  apply comprehension_Ok_Forall2 in H as [-> Hall]; cycle 1.
  { intros iv s1 y s2 Hx. now apply fake_client_Ok in Hx. }
  split; [reflexivity|]. split.
  - intros Hne. destruct counts as [|v counts]; [contradiction|].
    unfold enumerate in Hall. cbn [imap] in Hall.
    inversion Hall as [|? ? ? ? Hhd _]; subst.
    now apply fake_client_Ok in Hhd.
  - apply Forall2_eq_map. eapply Forall2_impl; [exact Hall|].
    intros iv cl Hcl. now apply fake_client_Ok in Hcl.
Qed.

Lemma external_inputs_Ok models (s s' : Self) fakes cms :
  external_inputs _mergeModels models s = Ok (fakes, cms) s' ->
  s' = s
  /\ ((0 < cluster_count s)%nat -> (0 < length (clients s))%nat)
  /\ fakes = map (fun iv => mkClient (weight_of (length (clients s)) (snd iv))
                              (Z.of_nat (fst iv)))
               (enumerate (cluster_sizes (cluster_choices s) (cluster_count s)))
  /\ length cms = cluster_count s
  /\ forall c, (c < cluster_count s)%nat ->
       members (cluster_choices s) c = [] -> cms !! c = Some (model s).
Proof.
  unfold external_inputs. intros H.
  apply bind_Ok_inv in H as (self0 & s0 & Hget & H).
  apply get_Ok_inv in Hget as [-> ->].
  apply bind_Ok_inv in H as (a0 & s1 & Hper & H).
  apply bind_Ok_inv in H as (fk & s2 & Hfk & H).
  apply ret_Ok_inv in H as [[= -> ->] ->].
  apply comprehension_Ok_Forall2 in Hper as [-> Hall]; cycle 1.
  { intros ? ? ? ? Hy. now apply cluster_model_Ok in Hy. }
  apply fake_clients_Ok in Hfk as (-> & Hpos & Hfakes).
  assert (Hsizes : map fst a0 = cluster_sizes (cluster_choices s) (cluster_count s)).
  { unfold cluster_sizes. clear -Hall.
    induction Hall as [|c y cs ys Hy _ IH]; cbn; [reflexivity|].
    apply cluster_model_Ok in Hy as (_ & -> & _). now rewrite IH. }
  assert (Hlen : length a0 = cluster_count s).
  { rewrite <- (Forall2_length _ _ _ Hall). apply length_seq. }
  rewrite Hsizes in *. repeat split.
  - intros HK. apply Hpos. intros E.
    apply (f_equal length) in E. unfold cluster_sizes in E.
    rewrite length_map, length_seq in E. cbn in E. lia.
  - exact Hfakes.
  - now rewrite length_map.
  - intros c Hc Hempty. rewrite list_lookup_fmap.
    destruct (Forall2_lookup_l _ _ _ c c Hall) as (y & Hy & Hcm).
    { apply lookup_seq. lia. }
    rewrite Hy. cbn. f_equal.
    apply cluster_model_Ok in Hcm as (_ & _ & Hm). now apply Hm.
Qed.

(** ** The states a run goes through *)

Lemma loop_test_Ok_state old (s s' : Self) b :
  loop_test old s = Ok b s' -> s' = s.
Proof.
  unfold loop_test. intros H.
  apply bind_Ok_inv in H as (x1 & s1 & H1 & H).
  apply deref_Ok_inv in H1 as (-> & _).
  apply bind_Ok_inv in H as (self0 & s2 & Hget & H).
  apply get_Ok_inv in Hget as [-> ->].
  apply bind_Ok_inv in H as (x2 & s3 & H2 & H).
  apply deref_Ok_inv in H2 as (-> & _).
  now apply ret_Ok_inv in H.
Qed.

(** The loop returns only when its test fails at once: an entered body
    ends in a raise. *)
Lemma clustering_loop_Ok_state fuel old mw (s s' : Self) :
  clustering_loop fuel old mw s = Ok tt s' ->
  s' = s /\ loop_test old s = Ok false s.
Proof.
  destruct fuel as [|fuel].
  - cbn [clustering_loop]. unfold bind.
    destruct (loop_test old s) as [[|] s1|e s1|] eqn:E; try discriminate.
    intros H. apply ret_Ok_inv in H as [_ ->].
    pose proof (loop_test_Ok_state _ _ _ _ E) as ->. auto.
  - rewrite clustering_loop_unfold.
    destruct (loop_test old s) as [[|] s1|e s1|] eqn:E; try discriminate.
    + destruct (assignment_step mw s1); discriminate.
    + intros [= ->]. pose proof (loop_test_Ok_state _ _ _ _ E) as ->. auto.
Qed.

Lemma clustering_Ok_frame fuel models (s s' : Self) :
  clustering aggregate randint fuel models s = Ok tt s' -> frame s s'.
Proof.
  unfold clustering. intros H.
  apply bind_Ok_inv in H as ([] & s1 & Hinit & H).
  apply bind_Ok_inv in H as (self0 & s2 & Hget & H).
  apply get_Ok_inv in Hget as [-> ->].
  apply clustering_loop_Ok_state in H as [-> _].
  eapply init_cluster_centres_frame. exact Hinit.
Qed.



(** C5 (amended). A round that completes has invoked the external
    aggregation strategy once, over the (cluster weight, cluster
    representative) pairs of all [K] clusters in the order of the
    cluster index, empty clusters included, and has stored the result as
    the global model.  The weight of cluster [c] is the quotient of its
    size by the number of clients, as the code divides them; an empty
    cluster comes with the weight 0 and, as its representative, an
    untouched copy of the current global model. *)
Theorem external_strategy_gets_every_cluster
    (fuel : nat) (models : list (Z * Module)) (self self' : Self) :
  trainAndTest_round aggregate _mergeModels randint fuel models self = Ok tt self' ->
  exists (fakes : list Client) (cluster_models : list Module) (agg' : AggSt),
    aggregate (externalAggregator self) fakes cluster_models = inr (model self', agg')
    /\ externalAggregator self' = agg'
    /\ length fakes = cluster_count self
    /\ length cluster_models = cluster_count self
    /\ forall c, (c < cluster_count self)%nat ->
         exists f m,
           fakes !! c = Some f
           /\ cluster_models !! c = Some m
           /\ id f = Z.of_nat c
           /\ true_div (length (members (cluster_choices self) c))
                (length (clients self)) = inr (p f)
           /\ (members (cluster_choices self) c = [] ->
               (p f == 0)%Q /\ m = model self).
Proof.
  unfold trainAndTest_round. intros H.
  apply bind_Ok_inv in H as ([] & s1 & Hcl & H).
  apply clustering_Ok_frame in Hcl as (Hclients & Hmodel & HK & Hchoices & Hext').
  apply bind_Ok_inv in H as ([fakes cms] & s2 & Hext & H).
  apply external_inputs_Ok in Hext as (-> & Hpos & Hfakes & Hlen & Hempty).
  apply bind_Ok_inv in H as (self0 & s3 & Hget & H).
  apply get_Ok_inv in Hget as [-> ->]. cbn [fst snd] in H.
  destruct (aggregate (externalAggregator s1) fakes cms) as [e|[m agg]] eqn:Ea;
    [discriminate|].
  apply bind_Ok_inv in H as ([] & s4 & Hs1 & Hs2).
  cbv [set_externalAggregator] in Hs1. injection Hs1 as <-.
  cbv [set_model] in Hs2. injection Hs2 as <-. cbn [model externalAggregator].
  rewrite Hclients, HK, Hchoices, Hmodel in *. rewrite Hext' in Ea.
  exists fakes, cms, agg.
  split; [exact Ea|]. split; [reflexivity|].
  assert (Hfl : length fakes = cluster_count self).
  { rewrite Hfakes. unfold enumerate, cluster_sizes.
    now rewrite length_map, length_imap, length_map, length_seq. }
  split; [exact Hfl|]. split; [exact Hlen|].
  intros c Hc.
  assert (Hn : (0 < length (clients self))%nat) by (apply Hpos; lia).
  destruct (lookup_lt_is_Some_2 cms c) as [m' Hm']; [lia|].
  eexists _, m'. split; [|split; [exact Hm'|]].
  - rewrite Hfakes, list_lookup_fmap. unfold enumerate. rewrite list_lookup_imap.
    unfold cluster_sizes. rewrite list_lookup_fmap, lookup_seq_lt by lia.
    reflexivity.
  - cbn [id p fst snd]. split; [reflexivity|]. split.
    + unfold true_div, weight_of.
      destruct (Nat.eqb_spec (length (clients self)) 0) as [E|_]; [lia|reflexivity].
    + intros E. split.
      * cbn [Nat.add]. rewrite E. unfold weight_of. cbn. unfold Qdiv. apply Qmult_0_l.
      * specialize (Hempty c Hc E). congruence.
Qed.



(** ** The update step *)

Lemma init_cluster_centres_update mw models (s : Self) r :
  cluster_centres s = Some r ->
  _init_cluster_centres aggregate randint mw models s
  = forM_ (seq 0 (cluster_count s)) (update_centre aggregate models) s.
Proof.
  intros Hr. unfold _init_cluster_centres, bind at 1. cbn [get].
  rewrite Hr. reflexivity.
Qed.

Lemma gen_cluster_centre_Ok indices models (s s' : Self) v :
  _gen_cluster_centre aggregate indices models s = Ok v s' ->
  exists cs ms m agg,
    Forall2 (fun i cl => py_index (clients s) i = inr cl) indices cs
    /\ Forall2 (fun i mdl => dict_get models (i + 1) = inr mdl) indices ms
    /\ aggregate (internalAggregator s) cs ms = inr (m, agg)
    /\ py_index (_generate_weights [(0%Z, m)]) 0 = inr v.
Proof.
  unfold _gen_cluster_centre. intros H.
  apply bind_Ok_inv in H as (cs & s1 & Hcs & H).
  apply comprehension_Ok_Forall2 in Hcs as [-> Hcs]; cycle 1.
  { intros ? ? ? ? Hx. now ok_inv. }
  apply bind_Ok_inv in H as (ms & s2 & Hms & H).
  apply comprehension_Ok_Forall2 in Hms as [-> Hms]; cycle 1.
  { intros ? ? ? ? Hx. now ok_inv. }
  apply bind_Ok_inv in H as (self0 & s3 & Hget & H).
  apply get_Ok_inv in Hget as [-> ->].
  destruct (aggregate (internalAggregator s) cs ms) as [e|[m agg]] eqn:Ea;
    [discriminate|].
  apply bind_Ok_inv in H as ([] & s4 & Hset & H).
  apply lift_Ok_inv in H as [Hv _].
  exists cs, ms, m, agg. repeat split; [| |exact Ea|exact Hv].
  - eapply Forall2_impl; [exact Hcs|]. intros i cl Hi. cbv beta in Hi.
    apply bind_Ok_inv in Hi as (self0 & s5 & Hget & Hi).
    apply get_Ok_inv in Hget as [-> ->]. now apply lift_Ok_inv in Hi.
  - eapply Forall2_impl; [exact Hms|]. intros i mdl Hi. cbv beta in Hi.
    now apply lift_Ok_inv in Hi.
Qed.

(** What one iteration does: the centroid at [choice] becomes the first
    element of the flattened model that the internal aggregator returns
    for the member list of [choice]; the other centroids stay. *)
Lemma update_centre_Ok models choice (s s' : Self) :
  update_centre aggregate models choice s = Ok tt s' ->
  exists r t cs ms m agg v,
    cluster_centres s = Some r /\ tensors s !! r = Some t
    /\ Forall2 (fun i cl => py_index (clients s) i = inr cl)
         (members (cluster_choices s) choice) cs
    /\ Forall2 (fun i mdl => dict_get models (i + 1) = inr mdl)
         (members (cluster_choices s) choice) ms
    /\ aggregate (internalAggregator s) cs ms = inr (m, agg)
    /\ py_index (_generate_weights [(0%Z, m)]) 0 = inr v
    /\ (choice < length t)%nat
    /\ tensors s' = <[r := <[choice := v]> t]> (tensors s)
    /\ cluster_centres s' = Some r
    /\ frame s s'.
Proof.
  unfold update_centre. intros H.
  apply bind_Ok_inv in H as (self0 & s1 & Hget & H).
  apply get_Ok_inv in Hget as [-> ->].
  apply bind_Ok_inv in H as (v & s2 & Hgen & H).
  pose proof (gen_cluster_centre_frame _ _ _ _ _ Hgen) as (Hf & Hcc & Hts).
  apply gen_cluster_centre_Ok in Hgen as (cs & ms & m & agg & Hcs & Hms & Ha & Hv).
  apply centres_setitem_Ok_inv in H
    as (r & t & Hr & Ht & Hlt & Hts' & Hr' & _ & Hf').
  exists r, t, cs, ms, m, agg, v. rewrite <- Hcc, <- Hts.
  pose proof (frame_trans _ _ _ Hf Hf') as Hfr.
  split; [assumption|]. split; [assumption|]. split; [assumption|].
  split; [assumption|]. split; [assumption|]. split; [assumption|].
  split; [assumption|]. split; [assumption|]. split; assumption.
Qed.




End Properties.

(** * The embedding on concrete runs *)

Lemma after_first_round_run :
  trainAndTest mean_aggregate weighted_merge (randint_const 0) 100
    [one_model 5] (one_client 5) = Ok tt after_first_round.
Proof. vm_compute. reflexivity. Qed.

(** C1: all parameters 0.  The drawn centroids are 0, the loop is
    entered, every similarity is 0, none exceeds the initial
    [best_sim = 0], and the client is given the choice [-1], which is no
    cluster index. *)
Theorem zero_centroids_assign_no_cluster :
  choose_cluster 0 [0; 0; 0]%Q = (-1)%Z
  /\ (exists self',
        clustering mean_aggregate (randint_const 0) 100 (one_model 0) (one_client 0)
          = Raise TypeError self'
        /\ cluster_count self' = 3%nat
        /\ cluster_choices self' = [(-1)%Z])
  /\ ~ (0 <= -1 < 3)%Z.
Proof.
  split; [reflexivity|]. split; [|lia].
  eexists. split; [vm_compute; reflexivity|]. split; reflexivity.
Qed.

Lemma clustering_terminates_within_cap_witness :
  (1 <= 100)%nat
  /\ clustering mean_aggregate (randint_const 0) 100 (one_model 0) (one_client 0)
     <> OutOfFuel
  /\ clustering mean_aggregate (randint_const 0) 100 (one_model 0) (one_client 0)
     = clustering mean_aggregate (randint_const 0) 1 (one_model 0) (one_client 0).
Proof.
  assert (H : (1 <= 100)%nat) by lia.
  split; [exact H|].
  exact (clustering_terminates_within_cap mean_aggregate (randint_const 0) 100
           (one_model 0) (one_client 0) H).
Defined.

(** C3: the second round of one client.  The first round left the
    centroids [5, 5, 5]; the client's model now holds -6 and the update
    turns the one centroid tensor into [-6, 7, 7].  Index by index the
    old and the new centroids have the similarities -1, 1 and 1, whose
    minimum is below 0.99, and the two tensors taken whole have a
    similarity below 0.99 as well.  The test of the loop nevertheless
    finds 1: [old_centres] is a second name for the updated tensor, not
    a copy of the old one, so the tensor is compared with itself, and
    [clustering] returns without an assignment step. *)
Theorem convergence_test_compares_centres_with_themselves :
  trainAndTest mean_aggregate weighted_merge (randint_const 0) 100
    [one_model 5] (one_client 5) = Ok tt after_first_round
  /\ tensors after_first_round = [[5; 5; 5]%Q]
  /\ spec_repeat [[5]; [5]; [5]]%Q [[-6]; [7]; [7]]%Q = true
  /\ converging [5; 5; 5]%Q [-6; 7; 7]%Q = true
  /\ exists self1,
       _init_cluster_centres mean_aggregate (randint_const 0)
         (_generate_weights (one_model (-6))) (one_model (-6)) after_first_round
         = Ok tt self1
       /\ cluster_centres self1 = cluster_centres after_first_round
       /\ tensors self1 = [[-6; 7; 7]%Q]
       /\ loop_test (cluster_centres self1) self1
          = Ok (converging [-6; 7; 7]%Q [-6; 7; 7]%Q) self1
       /\ converging [-6; 7; 7]%Q [-6; 7; 7]%Q = false
       /\ clustering mean_aggregate (randint_const 0) 100 (one_model (-6))
            after_first_round = Ok tt self1
       /\ cluster_choices self1 = cluster_choices after_first_round.
Proof.
  split; [vm_compute; reflexivity|]. split; [reflexivity|].
  split; [vm_compute; reflexivity|]. split; [vm_compute; reflexivity|].
  eexists. split; [vm_compute; reflexivity|].
  split; [reflexivity|]. split; [reflexivity|].
  split; [apply loop_test_same_tensor; reflexivity|].
  split; [vm_compute; reflexivity|].
  split; [vm_compute; reflexivity|reflexivity].
Qed.



Lemma two_clients_clustering :
  clustering mean_aggregate (randint_const 0) 100 (two_models 5 6) two_clients
  = Ok tt two_clients_clustered.
Proof. vm_compute. reflexivity. Qed.

(** C5 as stated fails: [K = 3] and two clients, with an external
    strategy that keeps a record of its calls.  Both clients are in
    cluster 0 and clusters 1 and 2 are empty; the specification's pairs
    are the one pair of cluster 0, yet the round invokes the strategy
    with three pairs: the two empty clusters come with the weight 0 and
    the current global model as their representative. *)
Lemma external_strategy_gets_empty_clusters :
  cluster_sizes (cluster_choices two_clients_recorded) 3 = [2; 0; 0]%nat
  /\ spec_external_pairs [2; 0; 0]%nat
       [mkClient (2 # 2) 0; mkClient (0 # 2) 1; mkClient (0 # 2) 2]
       [module_of [20 # 4]; module_of [5%Q]; module_of [5%Q]]
     = [(mkClient (2 # 2) 0, module_of [20 # 4])]
  /\ exists self',
       trainAndTest_round recording_aggregate weighted_merge (randint_const 0) 100
         (two_models 5 6) two_clients_recorded = Ok tt self'
       /\ cluster_choices self' = [0; 0]%Z
       /\ externalAggregator self'
          = [([mkClient (2 # 2) 0; mkClient (0 # 2) 1; mkClient (0 # 2) 2],
              [module_of [20 # 4]; module_of [5%Q]; module_of [5%Q]])].
Proof.
  split; [reflexivity|]. split; [reflexivity|].
  eexists. split; [vm_compute; reflexivity|]. split; reflexivity.
Qed.

Lemma external_strategy_gets_every_cluster_witness :
  trainAndTest_round recording_aggregate weighted_merge (randint_const 0) 100
    (two_models 5 6) two_clients_recorded = Ok tt two_clients_recorded_after_round
  /\ exists fakes cluster_models agg',
       recording_aggregate (externalAggregator two_clients_recorded)
         fakes cluster_models
       = inr (model two_clients_recorded_after_round, agg')
       /\ length fakes = 3%nat
       /\ length cluster_models = 3%nat.
Proof.
  assert (H : trainAndTest_round recording_aggregate weighted_merge (randint_const 0)
                100 (two_models 5 6) two_clients_recorded
              = Ok tt two_clients_recorded_after_round) by (vm_compute; reflexivity).
  split; [exact H|].
  destruct (external_strategy_gets_every_cluster recording_aggregate weighted_merge
              (randint_const 0) 100 (two_models 5 6) two_clients_recorded
              two_clients_recorded_after_round H)
    as (fakes & cms & agg' & Ha & _ & Hf & Hm & _).
  exists fakes, cms, agg'. split; [exact Ha|]. split; [exact Hf|exact Hm].
Defined.


(** C7 as stated fails: [torch.randint] may draw position 0 three
    times; the three initial centroids are then the same element, not
    three distinct client vectors. *)
Lemma initial_centres_may_repeat :
  _generate_weights three_models = [1; 2; 3]%Q
  /\ randint_const 0 3 3 = [0; 0; 0]%nat
  /\ Forall (fun i => (i < 3)%nat) (randint_const 0 3 3)
  /\ (exists self',
        _init_cluster_centres mean_aggregate (randint_const 0)
          (_generate_weights three_models) three_models three_clients = Ok tt self'
        /\ cluster_centres self' = Some 0%nat
        /\ tensors self' = [[1; 1; 1]%Q])
  /\ ~ NoDup [1; 1; 1]%Q.
Proof.
  split; [reflexivity|]. split; [reflexivity|]. split; [repeat constructor|]. split.
  - eexists. split; [vm_compute; reflexivity|]. split; reflexivity.
  - intros H. apply NoDup_cons in H as [H _]. apply H. now left.
Qed.

Lemma initial_centres_are_drawn_elements_witness :
  cluster_centres three_clients = None
  /\ (0 < length (_generate_weights three_models))%nat
  /\ exists centres self',
       _init_cluster_centres mean_aggregate (randint_const 0)
         (_generate_weights three_models) three_models three_clients = Ok tt self'
       /\ cluster_centres self' = Some (length (tensors three_clients))
       /\ tensors self' = tensors three_clients ++ [centres]
       /\ length centres = cluster_count three_clients.
Proof.
  assert (H0 : cluster_centres three_clients = None) by reflexivity.
  assert (H1 : (0 < length (_generate_weights three_models))%nat) by (cbn; lia).
  assert (H2 : length (randint_const 0 (length (_generate_weights three_models))
                         (cluster_count three_clients))
               = cluster_count three_clients) by reflexivity.
  assert (H3 : Forall (fun i => (i < length (_generate_weights three_models))%nat)
                 (randint_const 0 (length (_generate_weights three_models))
                    (cluster_count three_clients)))
    by (repeat constructor).
  split; [exact H0|]. split; [exact H1|].
  destruct (initial_centres_are_drawn_elements mean_aggregate (randint_const 0)
              (_generate_weights three_models) three_models three_clients
              H0 H1 H2 H3)
    as (centres & self' & Hi & Hc & Ht & _ & Hl & _).
  exists centres, self'. auto.
Defined.

(** C8 as stated fails: two clients with the parameters [-1e-9] and
    [1e-9]; position 1 is drawn three times.  The centroid tensor has no
    NaN and a nonzero norm, but its norm is below [eps], the clamped
    similarity with itself is far below 0.99, the body of the loop runs,
    the first client's choice becomes [-1], and the call raises instead
    of returning. *)
Lemma tiny_centres_enter_the_loop :
  cluster_choices two_clients = [0; 0]%Z
  /\ (0 < dot [1 # 1000000000; 1 # 1000000000; 1 # 1000000000]
             [1 # 1000000000; 1 # 1000000000; 1 # 1000000000])%Q
  /\ converging [1 # 1000000000; 1 # 1000000000; 1 # 1000000000]
       [1 # 1000000000; 1 # 1000000000; 1 # 1000000000] = true
  /\ exists self',
       clustering mean_aggregate (randint_const 1) 100
         (two_models (-1 # 1000000000) (1 # 1000000000)) two_clients
       = Raise TypeError self'
       /\ tensors self' = [[1 # 1000000000; 1 # 1000000000; 1 # 1000000000]]
       /\ cluster_choices self' = [-1; 0]%Z.
Proof.
  split; [reflexivity|]. split; [reflexivity|]. split; [vm_compute; reflexivity|].
  eexists. split; [vm_compute; reflexivity|]. split; reflexivity.
Qed.

Lemma no_iteration_when_norm_is_moderate_witness :
  _init_cluster_centres mean_aggregate (randint_const 0)
    (_generate_weights (two_models 5 6)) (two_models 5 6) two_clients
    = Ok tt two_clients_clustered
  /\ deref (cluster_centres two_clients_clustered) two_clients_clustered
     = Ok [5; 5; 5]%Q two_clients_clustered
  /\ (eps <= dot [5; 5; 5] [5; 5; 5])%Q
  /\ (dot [5; 5; 5] [5; 5; 5] <= 1000000000000000000)%Q
  /\ clustering mean_aggregate (randint_const 0) 100 (two_models 5 6) two_clients
     = Ok tt two_clients_clustered
  /\ cluster_choices two_clients_clustered = cluster_choices two_clients.
Proof.
  assert (H1 : _init_cluster_centres mean_aggregate (randint_const 0)
                 (_generate_weights (two_models 5 6)) (two_models 5 6) two_clients
               = Ok tt two_clients_clustered) by (vm_compute; reflexivity).
  assert (H2 : deref (cluster_centres two_clients_clustered) two_clients_clustered
               = Ok [5; 5; 5]%Q two_clients_clustered) by reflexivity.
  assert (H3 : (eps <= dot [5; 5; 5] [5; 5; 5])%Q) by (vm_compute; discriminate).
  assert (H4 : (dot [5; 5; 5] [5; 5; 5] <= 1000000000000000000)%Q)
    by (vm_compute; discriminate).
  split; [exact H1|]. split; [exact H2|]. split; [exact H3|]. split; [exact H4|].
  exact (no_iteration_when_norm_is_moderate mean_aggregate (randint_const 0) 100
           (two_models 5 6) two_clients two_clients_clustered [5; 5; 5]%Q
           H1 H2 H3 H4).
Defined.

Lemma member_list_is_copies_of_cluster_index_witness :
  dict_get (two_models 5 6) (Z.of_nat 0 + 1) = inr (module_of [5%Q])
  /\ py_index (clients two_clients_clustered) (Z.of_nat 0) = inr (mkClient (1 # 2) 1)
  /\ members (cluster_choices two_clients_clustered) 0 = [0; 0]%Z
  /\ cluster_model weighted_merge (two_models 5 6) 0 two_clients_clustered
     = Ok (2%nat,
           merge_copies weighted_merge (module_of [5%Q]) (1 # 2) 2
             (model two_clients_clustered) 0%Q)
         two_clients_clustered.
Proof.
  assert (H1 : dict_get (two_models 5 6) (Z.of_nat 0 + 1) = inr (module_of [5%Q]))
    by reflexivity.
  assert (H2 : py_index (clients two_clients_clustered) (Z.of_nat 0)
               = inr (mkClient (1 # 2) 1)) by reflexivity.
  split; [exact H1|]. split; [exact H2|].
  destruct (member_list_is_copies_of_cluster_index mean_aggregate weighted_merge
              two_clients_clustered (two_models 5 6) 0 _ _ H1 H2) as (Hm & Hc & _).
  split; [exact Hm|exact Hc].
Defined.

(** * Further properties of [GroupWiseAggregation] *)

Section MoreProperties.
Context {AggSt : Type}.
Variable aggregate : AggSt -> list Client -> list Module -> exn + (Module * AggSt).
Variable _mergeModels : Module -> Module -> Q -> Q -> Module.
Variable randint : nat -> nat -> list nat.

Abbreviation Self := (GroupWiseAggregation AggSt).

(** ** What the assignment step records *)

Lemma same_but_choices_refl (s : Self) : same_but_choices s s.
Proof. now repeat split. Qed.

Lemma same_but_choices_trans (s1 s2 s3 : Self) :
  same_but_choices s1 s2 -> same_but_choices s2 s3 -> same_but_choices s1 s3.
Proof.
  intros (?&?&?&?&?&?&?) (?&?&?&?&?&?&?). repeat split; congruence.
Qed.

Lemma deref_same_but_choices (s s' : Self) c :
  same_but_choices s s' ->
  deref (cluster_centres s) s = Ok c s ->
  deref (cluster_centres s') s' = Ok c s'.
Proof.
  intros (_ & _ & _ & Hc & _ & _ & Ht) H.
  apply deref_Ok_inv in H as (_ & a & Ha & Hl).
  unfold deref, bind, get. rewrite Hc, Ha, Ht, Hl. reflexivity.
Qed.

Lemma assignment_from (c : Tensor) (l : Tensor) :
  forall (k : nat) (s : Self),
  deref (cluster_centres s) s = Ok c s ->
  (k <= length (cluster_choices s))%nat ->
  exists s',
    forM_ (imap (fun i x => ((k + i)%nat, x)) l)
      (fun im =>
         self <- get ;;
         centres <- deref (cluster_centres self) ;;
         choices_setitem (fst im) (choose_cluster (snd im) centres)) s
    = (if (k + length l <=? length (cluster_choices s))%nat
       then Ok tt s' else Raise IndexError s')
    /\ length (cluster_choices s') = length (cluster_choices s)
    /\ (forall i w, (k <= i < length (cluster_choices s))%nat ->
          l !! (i - k)%nat = Some w ->
          cluster_choices s' !! i = Some (choose_cluster w c))
    /\ (forall i, (i < k \/ k + length l <= i)%nat ->
          cluster_choices s' !! i = cluster_choices s !! i)
    /\ same_but_choices s s'.
Proof.
  induction l as [|w l IH]; intros k s Hc Hk.
  - exists s. cbn [imap forM_ length]. rewrite Nat.add_0_r.
    destruct (Nat.leb_spec k (length (cluster_choices s))) as [_|Hlt]; [|lia].
    split; [reflexivity|]. split; [reflexivity|]. split.
    + intros i w' _ Hw. discriminate.
    + split; [reflexivity|apply same_but_choices_refl].
  - cbn [imap forM_ length fst snd]. rewrite Nat.add_0_r.
    unfold bind at 1. unfold bind at 1. cbn [get].
    rewrite (bind_Ok _ _ _ _ _ Hc).
    unfold choices_setitem at 1, bind at 1. cbn [get].
    destruct (Nat.ltb_spec k (length (cluster_choices s))) as [Hlt|Hge].
    + set (s1 := mkGroupWise AggSt (clients s) (model s) (cluster_count s)
                   (cluster_centres s)
                   (<[k := choose_cluster w c]> (cluster_choices s))
                   (internalAggregator s) (externalAggregator s) (tensors s)).
      change (set_cluster_choices (<[k:=choose_cluster w c]> (cluster_choices s)) s)
        with (Ok tt s1).
      assert (Hs1 : same_but_choices s s1) by (now repeat split).
      assert (Hlen1 : length (cluster_choices s1) = length (cluster_choices s))
        by (cbn; apply length_insert).
      destruct (IH (S k) s1 (deref_same_but_choices _ _ _ Hs1 Hc)) as
        (s' & Hrun & Hlen & Hset & Hkeep & Hsame); [lia|].
      exists s'. rewrite Hlen1 in *.
      erewrite imap_ext; [rewrite Hrun|intros i x _; cbn; f_equal; lia].
      replace (S k + length l)%nat with (k + S (length l))%nat by lia.
      split; [reflexivity|]. split; [exact Hlen|]. split; [|split].
      * intros i w' Hi Hw. destruct (Nat.eq_dec i k) as [->|Hne].
        -- rewrite Nat.sub_diag in Hw. injection Hw as <-.
           rewrite Hkeep by lia. cbn. now apply list_lookup_insert_eq.
        -- apply Hset; [lia|].
           replace (i - k)%nat with (S (i - S k)) in Hw by lia. exact Hw.
      * intros i Hi. rewrite Hkeep by lia. cbn.
        apply list_lookup_insert_ne. lia.
      * exact (same_but_choices_trans _ _ _ Hs1 Hsame).
    + exists s.
      destruct (Nat.leb_spec (k + S (length l)) (length (cluster_choices s)));
        [lia|].
      split; [reflexivity|]. split; [reflexivity|]. split; [intros; lia|].
      split; [reflexivity|apply same_but_choices_refl].
Qed.

(** X1. The assignment step gives every position [i] that exists in
    [cluster_choices] and in the flattened weights the choice computed
    for element [i] against the current centroids; the positions past
    the weights keep their choice, and nothing else of the object
    changes.  It returns when there are at most as many weights as
    choices, and otherwise raises [IndexError] once all choices have
    been overwritten. *)
Theorem assignment_step_records_choices
    (models_weights : Tensor) (self : Self) (centres : Tensor) :
  deref (cluster_centres self) self = Ok centres self ->
  exists self',
    assignment_step models_weights self
    = (if (length models_weights <=? length (cluster_choices self))%nat
       then Ok tt self' else Raise IndexError self')
    /\ length (cluster_choices self') = length (cluster_choices self)
    /\ (forall i w, (i < length (cluster_choices self))%nat ->
          models_weights !! i = Some w ->
          cluster_choices self' !! i = Some (choose_cluster w centres))
    /\ (forall i, (length models_weights <= i)%nat ->
          cluster_choices self' !! i = cluster_choices self !! i)
    /\ same_but_choices self self'.
Proof.
  intros Hc.
  destruct (assignment_from centres models_weights 0 self Hc) as
    (s' & Hrun & Hlen & Hset & Hkeep & Hsame); [lia|].
  exists s'. unfold assignment_step, enumerate. cbn [Nat.add] in Hrun.
  split; [exact Hrun|]. split; [exact Hlen|]. split; [|split].
  - intros i w Hi Hw. apply Hset; [lia|]. now rewrite Nat.sub_0_r.
  - intros i Hi. apply Hkeep. lia.
  - exact Hsame.
Qed.

(** ** The outcomes of [clustering] *)

(** X2. Once the centroids are initialised or updated, a call of
    [clustering] ends in one of three ways.  Either it returns and has
    changed nothing more; or the loop body has run exactly once, has
    rewritten the choices as the assignment step does, and the call
    raises: [TypeError] (the one-argument call) when there are at most
    as many flattened weights as clients' choices, [IndexError] (the
    assignment past the end of [cluster_choices]) when there are
    more. *)
Theorem clustering_outcomes
    (fuel : nat) (models : list (Z * Module)) (self self1 : Self) (centres : Tensor) :
  _init_cluster_centres aggregate randint (_generate_weights models) models self
    = Ok tt self1 ->
  deref (cluster_centres self1) self1 = Ok centres self1 ->
  (1 <= fuel)%nat ->
  clustering aggregate randint fuel models self = Ok tt self1
  \/ exists self2,
       clustering aggregate randint fuel models self
       = (if (length (_generate_weights models) <=? length (cluster_choices self1))%nat
          then Raise TypeError self2 else Raise IndexError self2)
       /\ (forall i w, (i < length (cluster_choices self1))%nat ->
             _generate_weights models !! i = Some w ->
             cluster_choices self2 !! i = Some (choose_cluster w centres))
       /\ same_but_choices self1 self2.
Proof.
  intros Hinit Hc Hfuel.
  rewrite (clustering_after_init aggregate randint fuel models self self1 centres Hinit Hc).
  destruct fuel as [|fuel]; [lia|].
  destruct (converging centres centres); [right|left; reflexivity].
  destruct (assignment_from centres (_generate_weights models) 0 self1 Hc)
    as (s2 & Hrun & _ & Hset & _ & Hsame); [lia|].
  exists s2. unfold assignment_step, enumerate. cbn [Nat.add] in Hrun. rewrite Hrun.
  split; [|split; [|exact Hsame]]; cycle 1.
  { intros i w Hi Hw. apply Hset; [lia|]. now rewrite Nat.sub_0_r. }
  destruct (length (_generate_weights models) <=? length (cluster_choices self1))%nat;
    reflexivity.
Qed.

(** X3. A call of [clustering] that returns has not entered the loop
    body: it is the initialisation or update of the centroids and
    nothing else, and the clients, the global model, the cluster count,
    the recorded choices and the external aggregator are what they
    were. *)
Theorem clustering_returns_without_reassigning
    (fuel : nat) (models : list (Z * Module)) (self self' : Self) :
  clustering aggregate randint fuel models self = Ok tt self' ->
  _init_cluster_centres aggregate randint (_generate_weights models) models self
    = Ok tt self'
  /\ cluster_choices self' = cluster_choices self
  /\ clients self' = clients self
  /\ model self' = model self
  /\ cluster_count self' = cluster_count self
  /\ externalAggregator self' = externalAggregator self.
Proof.
  intros H.
  pose proof (clustering_Ok_frame aggregate randint _ _ _ _ H)
    as (Hcl & Hm & HK & Hch & He).
  split; [|repeat split; assumption].
  unfold clustering in H.
  apply bind_Ok_inv in H as ([] & s1 & Hinit & H).
  apply bind_Ok_inv in H as (self0 & s2 & Hget & H).
  apply get_Ok_inv in Hget as [-> ->].
  apply clustering_loop_Ok_state in H as [-> _]. exact Hinit.
Qed.

(** ** Runs of [trainAndTest] *)

Lemma members_zeros_0 (n : nat) : members (replicate n 0%Z) 0 = replicate n 0%Z.
Proof. unfold members. induction n as [|n IH]; cbn; [reflexivity|now rewrite IH]. Qed.

Lemma members_zeros_S (n c : nat) : members (replicate n 0%Z) (S c) = [].
Proof. unfold members. induction n as [|n IH]; cbn; [reflexivity|exact IH]. Qed.

Lemma frame_choices_zero (s s' : Self) :
  frame s s' ->
  cluster_choices s = replicate (length (clients s)) 0%Z /\ cluster_count s = 3%nat ->
  cluster_choices s' = replicate (length (clients s')) 0%Z /\ cluster_count s' = 3%nat.
Proof.
  intros (Hc & _ & HK & Hch & _) [Hz H3]. rewrite Hc, HK, Hch. auto.
Qed.

Lemma trainAndTest_round_Ok_zero fuel models (s s' : Self) :
  trainAndTest_round aggregate _mergeModels randint fuel models s = Ok tt s' ->
  cluster_choices s = replicate (length (clients s)) 0%Z /\ cluster_count s = 3%nat ->
  cluster_choices s' = replicate (length (clients s')) 0%Z /\ cluster_count s' = 3%nat.
Proof.
  unfold trainAndTest_round. intros H Hs.
  apply bind_Ok_inv in H as ([] & s1 & Hcl & H).
  apply clustering_Ok_frame in Hcl.
  apply bind_Ok_inv in H as ([fakes cms] & s2 & Hext & H).
  apply external_inputs_Ok in Hext as (-> & _).
  apply bind_Ok_inv in H as (self0 & s3 & Hget & H).
  apply get_Ok_inv in Hget as [-> ->].
  destruct (aggregate _ _ _) as [e|[m agg]]; [discriminate|].
  apply bind_Ok_inv in H as ([] & s4 & H1 & H2).
  cbv [set_externalAggregator] in H1. injection H1 as <-.
  cbv [set_model] in H2. injection H2 as <-. cbn.
  exact (frame_choices_zero s s1 Hcl Hs).
Qed.

Lemma reachable_zeros (s : Self) :
  reachable aggregate _mergeModels randint s ->
  cluster_choices s = replicate (length (clients s)) 0%Z
  /\ cluster_count s = 3%nat.
Proof.
  induction 1 as [cs m i e|s fuel models s' _ IH Hround].
  - split; reflexivity.
  - eauto using trainAndTest_round_Ok_zero.
Qed.

(** X4. However many rounds have completed, no client has left cluster
    0: at the start of every round the cluster count is 3, the recorded
    choices are the constructor's zeros, one per client, so the member
    list of cluster 0 has one entry per client and those of clusters 1
    and 2 are empty. *)
Theorem reachable_choices_all_zero (self : Self) :
  reachable aggregate _mergeModels randint self ->
  cluster_count self = 3%nat
  /\ cluster_choices self = replicate (length (clients self)) 0%Z
  /\ cluster_sizes (cluster_choices self) (cluster_count self)
     = [length (clients self); 0; 0]%nat.
Proof.
  intros H. apply reachable_zeros in H as [Hz H3].
  split; [exact H3|]. split; [exact Hz|].
  rewrite Hz, H3. unfold cluster_sizes. cbn [seq map].
  now rewrite members_zeros_0, !members_zeros_S, length_replicate.
Qed.

Lemma external_inputs_per_cluster models (s s' : Self) fakes cms :
  external_inputs _mergeModels models s = Ok (fakes, cms) s' ->
  exists per,
    Forall2 (fun c y => cluster_model _mergeModels models c s = Ok y s)
      (seq 0 (cluster_count s)) per
    /\ cms = map snd per.
Proof.
  unfold external_inputs. intros H.
  apply bind_Ok_inv in H as (self0 & s0 & Hget & H).
  apply get_Ok_inv in Hget as [-> ->].
  apply bind_Ok_inv in H as (per & s1 & Hper & H).
  apply bind_Ok_inv in H as (fk & s2 & Hfk & H).
  apply ret_Ok_inv in H as [[= -> ->] ->].
  apply comprehension_Ok_Forall2 in Hper as [-> Hall]; cycle 1.
  { intros ? ? ? ? Hy. now apply (cluster_model_Ok _mergeModels) in Hy. }
  exists per. split; [exact Hall|reflexivity].
Qed.

(** X5. A round that completes from a reachable state hands the
    external aggregator exactly three weighted clients, with the weights
    [n/n], [0/n] and [0/n] for [n] clients, and three models: for
    cluster 0 the model at key 1 merged [n] times with the stake of the
    client at position 0, and for clusters 1 and 2 the unchanged global
    model.  The result becomes the new global model.  Of the trained
    models only the one at key 1 reaches the aggregation. *)
Theorem completed_round_aggregates_first_model
    (self self' : Self) (fuel : nat) (models : list (Z * Module)) :
  reachable aggregate _mergeModels randint self ->
  trainAndTest_round aggregate _mergeModels randint fuel models self = Ok tt self' ->
  let n := length (clients self) in
  exists m1 c0 agg',
    (0 < n)%nat
    /\ dict_get models 1 = inr m1
    /\ py_index (clients self) 0 = inr c0
    /\ aggregate (externalAggregator self)
         [mkClient (weight_of n n) 0; mkClient (weight_of n 0) 1;
          mkClient (weight_of n 0) 2]
         [merge_copies _mergeModels m1 (p c0) n (model self) 0%Q;
          model self; model self]
       = inr (model self', agg')
    /\ externalAggregator self' = agg'
    /\ clients self' = clients self
    /\ cluster_choices self' = cluster_choices self.
Proof.
  intros Hreach H n.
  pose proof (reachable_zeros self Hreach) as Hzero.
  unfold trainAndTest_round in H.
  apply bind_Ok_inv in H as ([] & s1 & Hcl & H).
  apply clustering_Ok_frame in Hcl.
  pose proof (frame_choices_zero _ _ Hcl Hzero) as [Hz H3].
  destruct Hcl as (Hclients & Hmodel & _ & Hchoices & Hext').
  apply bind_Ok_inv in H as ([fakes cms] & s2 & Hext & H).
  pose proof (external_inputs_per_cluster _ _ _ _ _ Hext) as (per & Hper & ->).
  apply (external_inputs_Ok _mergeModels) in Hext as (-> & Hpos & -> & _ & _).
  assert (Hn : (0 < length (clients s1))%nat) by (apply Hpos; lia).
  rewrite H3 in Hper. cbn [seq] in Hper.
  inversion Hper as [|? y0 ? per1 Hy0 Hper1]; subst.
  inversion Hper1 as [|? y1 ? per2 Hy1 Hper2]; subst.
  inversion Hper2 as [|? y2 ? per3 Hy2 Hper3]; subst.
  inversion Hper3; subst. clear Hper Hper1 Hper2 Hper3.
  pose proof (cluster_model_Ok _mergeModels _ _ _ _ _ Hy1) as (_ & _ & Hm1).
  pose proof (cluster_model_Ok _mergeModels _ _ _ _ _ Hy2) as (_ & _ & Hm2).
  rewrite Hz, members_zeros_S in Hm1, Hm2.
  specialize (Hm1 eq_refl). specialize (Hm2 eq_refl).
  (* cluster 0 *)
  unfold cluster_model in Hy0.
  apply bind_Ok_inv in Hy0 as (self0 & s3 & Hget & Hy0).
  apply get_Ok_inv in Hget as [-> ->].
  apply bind_Ok_inv in Hy0 as (merged & s4 & Hmerge & Hy0).
  apply ret_Ok_inv in Hy0 as [-> _].
  rewrite Hz, members_zeros_0 in Hmerge.
  destruct (length (clients s1)) as [|n'] eqn:En; [lia|].
  assert (Hlook : exists m1 c0, dict_get models 1 = inr m1
                    /\ py_index (clients s1) 0 = inr c0).
  { cbn [replicate merge_members] in Hmerge.
    apply bind_Ok_inv in Hmerge as (m1 & s5 & Hd & Hmerge).
    apply lift_Ok_inv in Hd as [Hd ->].
    apply bind_Ok_inv in Hmerge as (self0 & s6 & Hget & Hmerge).
    apply get_Ok_inv in Hget as [-> ->].
    apply bind_Ok_inv in Hmerge as (c0 & s7 & Hc0 & _).
    apply lift_Ok_inv in Hc0 as [Hc0 _]. eauto. }
  destruct Hlook as (m1 & c0 & Hd & Hc0).
  rewrite (merge_members_replicate _mergeModels models s1 0%Z m1 c0 (S n') _ _ Hd Hc0)
    in Hmerge.
  injection Hmerge as <- _.
  apply bind_Ok_inv in H as (self0 & s8 & Hget & H).
  apply get_Ok_inv in Hget as [-> ->].
  cbn [fst snd] in H.
  destruct (aggregate _ _ _) as [e|[m agg]] eqn:Ea; [discriminate|].
  apply bind_Ok_inv in H as ([] & s9 & Hs1 & Hs2).
  cbv [set_externalAggregator] in Hs1. injection Hs1 as <-.
  cbv [set_model] in Hs2. injection Hs2 as <-. cbn.
  exists m1, c0, agg. unfold n. rewrite <- Hclients, En.
  split; [lia|]. split; [exact Hd|]. split; [exact Hc0|].
  split; [|repeat split; assumption].
  rewrite <- Hext', <- Hmodel. rewrite <- Ea. f_equal.
  - rewrite Hz, H3. unfold cluster_sizes. cbn [seq map].
    rewrite members_zeros_0, !members_zeros_S, length_replicate. reflexivity.
  - cbn [map snd]. rewrite Hm1, Hm2. reflexivity.
Qed.

(** ** Errors of [_gen_cluster_centre] *)

Lemma py_index_error {A} (l : list A) i e : py_index l i = inl e -> e = IndexError.
Proof.
  unfold py_index. destruct (_ && _)%bool; [|congruence].
  destruct (l !! _); congruence.
Qed.

Lemma dict_get_error {A} (d : list (Z * A)) k e : dict_get d k = inl e -> e = KeyError.
Proof.
  induction d as [|[k' v] d IH]; cbn; [congruence|].
  destruct (k' =? k)%Z; [discriminate|exact IH].
Qed.

Lemma comprehension_Exists_Raise {S A B} (f : A -> M S B) (l : list A) (s : S) e :
  (forall x, (exists y, f x s = Ok y s) \/ f x s = Raise e s) ->
  Exists (fun x => f x s = Raise e s) l ->
  comprehension f l s = Raise e s.
Proof.
  intros Hf Hex. induction Hex as [x l Hx|x l _ IH]; cbn [comprehension].
  - now rewrite (bind_Raise _ _ _ _ _ Hx).
  - destruct (Hf x) as [[y Hy]|Hx].
    + rewrite (bind_Ok _ _ _ _ _ Hy). now rewrite (bind_Raise _ _ _ _ _ IH).
    + now rewrite (bind_Raise _ _ _ _ _ Hx).
Qed.

Lemma comprehension_Forall_Ok {S A B} (f : A -> M S B) (l : list A) (s : S) :
  Forall (fun x => exists y, f x s = Ok y s) l ->
  exists ys, comprehension f l s = Ok ys s.
Proof.
  induction 1 as [|x l [y Hy] _ [ys IH]]; cbn [comprehension].
  - now exists [].
  - exists (y :: ys). rewrite (bind_Ok _ _ _ _ _ Hy), (bind_Ok _ _ _ _ _ IH).
    reflexivity.
Qed.

(** X6. [_gen_cluster_centre] looks up all member clients before any
    member model and both before it calls the aggregator.  A member
    index outside [self.clients] raises [IndexError], whatever the
    dictionary holds; with all clients found, a member whose key
    [i + 1] is missing from the dictionary raises [KeyError].  Either
    way nothing of the object has changed. *)
Theorem gen_cluster_centre_lookup_errors
    (indices : list Z) (models : list (Z * Module)) (self : Self) :
  (Exists (fun i => py_index (clients self) i = inl IndexError) indices ->
   _gen_cluster_centre aggregate indices models self = Raise IndexError self)
  /\ (Forall (fun i => exists c, py_index (clients self) i = inr c) indices ->
      Exists (fun i => dict_get models (i + 1) = inl KeyError) indices ->
      _gen_cluster_centre aggregate indices models self = Raise KeyError self).
Proof.
  unfold _gen_cluster_centre. split.
  - intros Hex. apply bind_Raise.
    apply comprehension_Exists_Raise.
    + intros i. unfold bind, get. destruct (py_index (clients self) i) as [e|c] eqn:E.
      * apply py_index_error in E as ->. now right.
      * left. now exists c.
    + eapply Exists_impl; [exact Hex|]. intros i Hi. cbv beta in *.
      unfold bind, get. now rewrite Hi.
  - intros Hall Hex.
    destruct (comprehension_Forall_Ok
                (fun i => self0 <- get ;; lift (py_index (clients self0) i))
                indices self) as [cs Hcs].
    { eapply Forall_impl; [exact Hall|]. intros i [c Hc]. exists c.
      unfold bind, get. now rewrite Hc. }
    rewrite (bind_Ok _ _ _ _ _ Hcs). apply bind_Raise.
    apply comprehension_Exists_Raise.
    + intros i. destruct (dict_get models (i + 1)) as [e|m] eqn:E.
      * apply dict_get_error in E as ->. now right.
      * left. now exists m.
    + eapply Exists_impl; [exact Hex|]. intros i Hi. cbv beta in *. now rewrite Hi.
Qed.

(** ** More on flattening *)

(** X7. Flattening is compatible with extending the dictionary: the
    flat tensor of a dictionary followed by further entries is the flat
    tensor of the dictionary followed by that of the further entries,
    so entries keep their positions.  Its length is the total number of
    parameter elements, whatever the sizes of the models. *)
Theorem generate_weights_app (a b : list (Z * Module)) :
  _generate_weights (a ++ b) = _generate_weights a ++ _generate_weights b
  /\ length (_generate_weights a)
     = sum_list (map (fun im =>
                        sum_list (map (fun np => length (snd np))
                                    (named_parameters (snd im)))) a).
Proof.
  split.
  - rewrite !generate_weights_concat, map_app. apply concat_app.
  - rewrite generate_weights_concat.
    induction a as [|im a IH]; cbn; [reflexivity|].
    rewrite length_app, IH. f_equal.
    rewrite module_coords_concat. clear.
    induction (named_parameters (snd im)) as [|np nps IH]; cbn; [reflexivity|].
    now rewrite length_app, IH.
Qed.

(** ** The first round without parameters *)

(** X8. While no centroids exist, a dictionary of models that flattens
    to the empty tensor (no client, or models without parameters) makes
    [clustering] raise [RuntimeError] at the draw of the initial
    centroids, and [trainAndTest] raises it in that round, with the
    object unchanged. *)
Theorem first_clustering_needs_weights
    (fuel : nat) (models : list (Z * Module)) (rounds : list (list (Z * Module)))
    (self : Self) :
  cluster_centres self = None ->
  _generate_weights models = [] ->
  clustering aggregate randint fuel models self = Raise RuntimeError self
  /\ trainAndTest aggregate _mergeModels randint fuel (models :: rounds) self
     = Raise RuntimeError self.
Proof.
  intros Hnone Hempty.
  assert (H : clustering aggregate randint fuel models self = Raise RuntimeError self).
  { unfold clustering. apply bind_Raise.
    unfold _init_cluster_centres, bind, get. rewrite Hnone, Hempty. reflexivity. }
  split; [exact H|].
  unfold trainAndTest. cbn [forM_]. apply bind_Raise.
  unfold trainAndTest_round. now apply bind_Raise.
Qed.

(** ** The centroid tensor over a run *)

Lemma update_centre_keeps_allocated models choice (s s' : Self) :
  update_centre aggregate models choice s = Ok tt s' ->
  (cluster_centres s = Some 0%nat /\ exists t, tensors s = [t] /\ length t = 3%nat) ->
  (cluster_centres s' = Some 0%nat /\ exists t, tensors s' = [t] /\ length t = 3%nat).
Proof.
  intros H (Hr & t & Ht & Hlen).
  apply (update_centre_Ok aggregate) in H
    as (r' & t' & cs & ms & m & agg & v & Hr' & Ht' & _ & _ & _ & _ & _ & Hts & Hr'' & _).
  assert (r' = 0%nat) as -> by congruence.
  rewrite Ht in Ht', Hts. injection Ht' as <-.
  split; [exact Hr''|]. exists (<[choice := v]> t). split; [exact Hts|].
  now rewrite length_insert.
Qed.

Lemma clustering_Ok_allocated fuel models (s s' : Self) :
  (forall high size, length (randint high size) = size) ->
  cluster_count s = 3%nat ->
  clustering aggregate randint fuel models s = Ok tt s' ->
  centres_allocated s ->
  cluster_centres s' = Some 0%nat /\ exists t, tensors s' = [t] /\ length t = 3%nat.
Proof.
  intros Hrand H3 H Hs. unfold clustering in H.
  apply bind_Ok_inv in H as ([] & s1 & Hinit & H).
  apply bind_Ok_inv in H as (self0 & s2 & Hget & H).
  apply get_Ok_inv in Hget as [-> ->].
  apply clustering_loop_Ok_state in H as [-> _].
  destruct Hs as [[Hnone Hts]|Hsome].
  - unfold _init_cluster_centres in Hinit.
    apply bind_Ok_inv in Hinit as (self0 & s2 & Hget & Hinit).
    apply get_Ok_inv in Hget as [-> ->]. rewrite Hnone in Hinit.
    destruct (length (_generate_weights models) =? 0)%nat; [discriminate|].
    destruct (index_select _ _) as [t|] eqn:Esel; [|discriminate].
    apply bind_Ok_inv in Hinit as (r & s3 & Hnew & Hset).
    unfold new_tensor in Hnew.
    apply bind_Ok_inv in Hnew as (self0 & s4 & Hget & Hnew).
    apply get_Ok_inv in Hget as [-> ->].
    apply bind_Ok_inv in Hnew as ([] & s5 & Hst & Hret).
    cbv [set_tensors] in Hst. injection Hst as <-.
    apply ret_Ok_inv in Hret as [-> ->].
    cbv [set_cluster_centres] in Hset. injection Hset as <-. cbn.
    rewrite Hts. split; [reflexivity|]. exists t. split; [reflexivity|].
    unfold index_select in Esel. apply length_mapM in Esel.
    rewrite <- Esel, Hrand. exact H3.
  - pose proof Hsome as [Hr _].
    rewrite (init_cluster_centres_update aggregate randint _ _ _ _ Hr) in Hinit.
    eapply (forM__invariant
              (fun s => cluster_centres s = Some 0%nat
                        /\ exists t, tensors s = [t] /\ length t = 3%nat));
      [|exact Hinit|exact Hsome].
    intros x sa sb Hx. now apply update_centre_keeps_allocated with (models := models)
                                                                   (choice := x).
Qed.

(** X9. Provided that [torch.randint] returns as many positions as it
    is asked for, a run has at most one tensor object: none until the
    first clustering has returned, and from then on one centroid tensor
    of exactly three elements, which later rounds update in place and
    never replace. *)
Theorem reachable_centres_allocated (self : Self) :
  (forall high size, length (randint high size) = size) ->
  reachable aggregate _mergeModels randint self ->
  centres_allocated self.
Proof.
  intros Hrand. induction 1 as [cs m i e|s fuel models s' Hreach IH Hround].
  - left. split; reflexivity.
  - right. pose proof (reachable_zeros s Hreach) as [_ H3].
    unfold trainAndTest_round in Hround.
    apply bind_Ok_inv in Hround as ([] & s1 & Hcl & H).
    pose proof (clustering_Ok_allocated _ _ _ _ Hrand H3 Hcl IH) as Hs1.
    apply bind_Ok_inv in H as ([fakes cms] & s2 & Hext & H).
    apply (external_inputs_Ok _mergeModels) in Hext as (-> & _).
    apply bind_Ok_inv in H as (self0 & s3 & Hget & H).
    apply get_Ok_inv in Hget as [-> ->].
    destruct (aggregate _ _ _) as [e|[m agg]]; [discriminate|].
    apply bind_Ok_inv in H as ([] & s4 & H1 & H2).
    cbv [set_externalAggregator] in H1. injection H1 as <-.
    cbv [set_model] in H2. injection H2 as <-. cbn. exact Hs1.
Qed.

End MoreProperties.

(** * [src/main.py]: the clients of an experiment *)

Lemma mapE_inr {E A B} (f : A -> E + B) (l : list A) (ys : list B) :
  mapE f l = inr ys <-> Forall2 (fun x y => f x = inr y) l ys.
Proof.
  revert ys. induction l as [|x l IH]; intros ys; cbn.
  - split; [intros [= <-]; constructor|intros H; now inversion H].
  - destruct (f x) as [e|y] eqn:Ex.
    + split; [discriminate|]. intros H. inversion H; subst. congruence.
    + destruct (mapE f l) as [e|ys'] eqn:El.
      * split; [discriminate|]. intros H. inversion H as [|? ? ? ys2 _ Hl]; subst.
        apply IH in Hl. discriminate.
      * split.
        -- intros [= <-]. constructor; [exact Ex|]. now apply IH.
        -- intros H. inversion H as [|? y' ? ys2 Hy Hl]; subst.
           apply IH in Hl. congruence.
Qed.

Lemma mapE_inl_first {E A B} (f : A -> E + B) (l1 l2 : list A) (x : A) (e : E) :
  Forall (fun a => exists y, f a = inr y) l1 ->
  f x = inl e ->
  mapE f (l1 ++ x :: l2) = inl e.
Proof.
  intros Hall Hx. induction Hall as [|a l1 [y Hy] _ IH]; cbn.
  - now rewrite Hx.
  - now rewrite Hy, IH.
Qed.

Lemma py_index_nat {A} (l : list A) (i : nat) :
  py_index l (Z.of_nat i)
  = match l !! i with Some x => inr x | None => inl IndexError end.
Proof.
  unfold py_index.
  destruct (Z.ltb_spec (Z.of_nat i) 0) as [Hneg|_]; [lia|].
  destruct (Z.leb_spec 0 (Z.of_nat i)) as [_|Hneg]; [|lia].
  rewrite Nat2Z.id. cbn [andb].
  destruct (Z.ltb_spec (Z.of_nat i) (Z.of_nat (length l))) as [Hlt|Hge].
  - reflexivity.
  - rewrite lookup_ge_None_2 by lia. reflexivity.
Qed.

Section InitClientsProperties.
Variable new_client : nat -> list Z -> Q -> Main.Client.

Lemma mark_keeps faulty malicious freeRiding (c : Main.Client) :
  Main.id (Main.mark faulty malicious freeRiding c) = Main.id c
  /\ Main.n (Main.mark faulty malicious freeRiding c) = Main.n c
  /\ Main.p (Main.mark faulty malicious freeRiding c) = Main.p c.
Proof.
  unfold Main.mark.
  destruct (Main.mem (Main.id c) faulty); cbn;
    destruct (Main.mem (Main.id c) malicious); cbn;
    destruct (Main.mem (Main.id c) freeRiding); cbn; auto.
Qed.

(** What [__initClients] returns when it returns: the constructed
    clients, each with its share of the training points as weight, then
    marked. *)
Lemma initClients_inr usersNo (trainDatasets : list (list Z))
    faulty malicious freeRiding (clients : list Main.Client) :
  Main.__initClients new_client usersNo trainDatasets faulty malicious freeRiding
    = inr clients ->
  exists built,
    (0 < usersNo)%nat
    /\ Forall2 (fun i b => exists ds, trainDatasets !! i = Some ds
                  /\ b = new_client i ds (weight_of usersNo 1))
         (seq 0 usersNo) built
    /\ (0 < sum_list (map Main.n built))%nat
    /\ clients
       = map (fun b => Main.mark faulty malicious freeRiding
                         (Main.set_p b (weight_of (sum_list (map Main.n built))
                                          (Main.n b)))) built.
Proof.
  unfold Main.__initClients. intros H.
  destruct (true_div 1 usersNo) as [e|p0] eqn:Ep0; [discriminate|].
  apply true_div_inr in Ep0 as [Hpos ->].
  destruct (mapE _ (seq 0 usersNo)) as [e|built] eqn:Eb; [discriminate|].
  destruct (mapE _ built) as [e|weighted] eqn:Ew; [discriminate|].
  injection H as <-. exists built.
  apply mapE_inr in Eb. apply mapE_inr in Ew.
  split; [exact Hpos|]. split; [|split].
  - eapply Forall2_impl; [exact Eb|]. intros i b Hb. cbv beta in Hb.
    rewrite py_index_nat in Hb. destruct (trainDatasets !! i) as [ds|]; [|discriminate].
    injection Hb as <-. now exists ds.
  - destruct built as [|b built'].
    + apply Forall2_length in Eb. rewrite length_seq in Eb. cbn in Eb. lia.
    + inversion Ew as [|? ? ? ? Hb _]; subst. cbv beta in Hb.
      destruct (true_div _ _) as [e|w] eqn:Ed; [discriminate|].
      now apply true_div_inr in Ed as [Hn _].
  - assert (Hw : weighted
                 = map (fun b => Main.set_p b (weight_of (sum_list (map Main.n built))
                                                 (Main.n b))) built).
    { apply Forall2_eq_map. eapply Forall2_impl; [exact Ew|].
      intros b c Hc. cbv beta in Hc.
      destruct (true_div _ _) as [e|w] eqn:Ed; [discriminate|].
      apply true_div_inr in Ed as [_ ->]. now injection Hc as <-. }
    rewrite Hw, map_map. reflexivity.
Qed.

(** X11. When [__initClients] returns, there is one client per user,
    the clients have at least one training point in total, and the
    weight of each client is the quotient of its number of training
    points by the total, whatever weight [p0] the constructor was
    given. *)
Theorem initClients_weights usersNo (trainDatasets : list (list Z))
    faulty malicious freeRiding (clients : list Main.Client) :
  Main.__initClients new_client usersNo trainDatasets faulty malicious freeRiding
    = inr clients ->
  let nTrain := sum_list (map Main.n clients) in
  length clients = usersNo
  /\ (0 < nTrain)%nat
  /\ Forall (fun c => true_div (Main.n c) nTrain = inr (Main.p c)) clients.
Proof.
  intros H nTrain.
  apply initClients_inr in H as (built & Hpos & Hb & Hn & ->).
  assert (Hns : map Main.n
                  (map (fun b => Main.mark faulty malicious freeRiding
                                   (Main.set_p b (weight_of (sum_list (map Main.n built))
                                                    (Main.n b)))) built)
                = map Main.n built).
  { rewrite map_map. apply map_ext. intros b.
    now destruct (mark_keeps faulty malicious freeRiding
                    (Main.set_p b (weight_of (sum_list (map Main.n built)) (Main.n b))))
      as (_ & -> & _). }
  assert (HnT : nTrain = sum_list (map Main.n built)) by (unfold nTrain; now rewrite Hns).
  split; [|split].
  - rewrite length_map. apply Forall2_length in Hb. now rewrite length_seq in Hb.
  - now rewrite HnT.
  - rewrite Forall_map. apply Forall_forall. intros b _. rewrite HnT.
    destruct (mark_keeps faulty malicious freeRiding
                (Main.set_p b (weight_of (sum_list (map Main.n built)) (Main.n b))))
      as (_ & -> & ->). cbn [Main.set_p Main.n Main.p].
    unfold true_div, weight_of.
    destruct (Nat.eqb_spec (sum_list (map Main.n built)) 0) as [E|_];
      [lia|reflexivity].
Qed.

Lemma built_clients usersNo (trainDatasets : list (list Z)) (p0 : Q) :
  (usersNo <= length trainDatasets)%nat ->
  mapE (fun i =>
          match py_index trainDatasets (Z.of_nat i) with
          | inl e => inl e
          | inr ds => inr (new_client i ds p0)
          end) (seq 0 usersNo)
  = inr (imap (fun i ds => new_client i ds p0) (take usersNo trainDatasets)).
Proof.
  intros Hle. apply mapE_inr. apply Forall2_same_length_lookup_2.
  - rewrite length_seq, length_imap, length_take. lia.
  - intros i x b Hx Hb. apply lookup_seq in Hx as [-> Hlt]. cbn [Nat.add].
    rewrite list_lookup_imap, lookup_take_lt in Hb by exact Hlt.
    rewrite py_index_nat. destruct (trainDatasets !! i) as [ds|]; [|discriminate].
    cbn in Hb. now injection Hb as <-.
Qed.

(** X12. [__initClients] raises [ZeroDivisionError] when there is no
    user ([p0 = 1 / usersNo]), [IndexError] when there are fewer
    training sets than users, and [ZeroDivisionError] again when no
    constructed client has a training point ([client.n / nTrain]). *)
Theorem initClients_errors usersNo (trainDatasets : list (list Z))
    faulty malicious freeRiding :
  (usersNo = 0%nat ->
   Main.__initClients new_client usersNo trainDatasets faulty malicious freeRiding
   = inl ZeroDivisionError)
  /\ ((length trainDatasets < usersNo)%nat ->
      Main.__initClients new_client usersNo trainDatasets faulty malicious freeRiding
      = inl IndexError)
  /\ ((0 < usersNo <= length trainDatasets)%nat ->
      sum_list (map Main.n
                  (imap (fun i ds => new_client i ds (weight_of usersNo 1))
                     (take usersNo trainDatasets))) = 0%nat ->
      Main.__initClients new_client usersNo trainDatasets faulty malicious freeRiding
      = inl ZeroDivisionError).
Proof.
  unfold Main.__initClients. split; [|split].
  - intros ->. reflexivity.
  - intros Hlt. unfold true_div.
    destruct (Nat.eqb_spec usersNo 0) as [E|_]; [lia|].
    replace (seq 0 usersNo)
      with (seq 0 (length trainDatasets)
              ++ length trainDatasets :: seq (S (length trainDatasets))
                                            (usersNo - S (length trainDatasets))).
    + erewrite mapE_inl_first; [reflexivity| |].
      * apply Forall_forall. intros i Hi. apply elem_of_seq in Hi.
        rewrite py_index_nat.
        destruct (lookup_lt_is_Some_2 trainDatasets i) as [ds ->]; [lia|]. eauto.
      * rewrite py_index_nat, lookup_ge_None_2 by lia. reflexivity.
    + change (length trainDatasets :: seq (S (length trainDatasets))
                                         (usersNo - S (length trainDatasets)))
        with (seq (length trainDatasets) (S (usersNo - S (length trainDatasets)))).
      rewrite <- seq_app. f_equal. lia.
  - intros [Hpos Hle] Hzero. unfold true_div at 1.
    destruct (Nat.eqb_spec usersNo 0) as [E|_]; [lia|].
    fold (weight_of usersNo 1). change (Z.of_nat 1) with 1%Z.
    rewrite (built_clients usersNo trainDatasets _ Hle).
    cbv zeta. rewrite Hzero.
    destruct (imap _ (take usersNo trainDatasets)) as [|b built] eqn:Eb.
    + apply (f_equal length) in Eb.
      rewrite length_imap, length_take in Eb. cbn in Eb. lia.
    + reflexivity.
Qed.

(** X13. In the list that [__initClients] returns, client [i] is the
    object constructed for index [i] and training set [i]; it is
    Byzantine, label-flipping or free-riding if the constructor made it
    so or if its id is in [config.faulty], [config.malicious] or
    [config.freeRiding]; and the labels of a client whose id is in
    [config.malicious] are all 0, as many as before, while the labels of
    every other client are untouched. *)
Theorem initClients_marks usersNo (trainDatasets : list (list Z))
    faulty malicious freeRiding (clients : list Main.Client) :
  Main.__initClients new_client usersNo trainDatasets faulty malicious freeRiding
    = inr clients ->
  forall i c, clients !! i = Some c ->
  exists ds,
    trainDatasets !! i = Some ds
    /\ let b := new_client i ds (weight_of usersNo 1) in
       Main.id c = Main.id b
       /\ Main.byz c = (Main.byz b || Main.mem (Main.id b) faulty)%bool
       /\ Main.flip c = (Main.flip b || Main.mem (Main.id b) malicious)%bool
       /\ Main.free c = (Main.free b || Main.mem (Main.id b) freeRiding)%bool
       /\ Main.trainDataset c
          = (if Main.mem (Main.id b) malicious
             then replicate (length (Main.trainDataset b)) 0%Z
             else Main.trainDataset b)
       /\ length (Main.trainDataset c) = length (Main.trainDataset b).
Proof.
  intros H i c Hc.
  apply initClients_inr in H as (built & _ & Hb & _ & ->).
  rewrite list_lookup_fmap in Hc.
  destruct (built !! i) as [b|] eqn:Ebi; [|discriminate]. cbn in Hc.
  injection Hc as <-.
  destruct (Forall2_lookup_r _ _ _ _ _ Hb Ebi) as (j & Hj & ds & Hds & ->).
  apply lookup_seq in Hj as [-> _]. cbn [Nat.add] in *.
  exists ds. split; [exact Hds|]. cbv zeta.
  set (b := new_client i ds (weight_of usersNo 1)).
  unfold Main.mark, Main.set_p, Main.zeroLabels. cbn.
  destruct (Main.mem (Main.id b) faulty); cbn;
    destruct (Main.mem (Main.id b) malicious); cbn;
    destruct (Main.mem (Main.id b) freeRiding); cbn;
    rewrite ?Bool.orb_true_r, ?Bool.orb_false_r, ?length_replicate;
    repeat split; reflexivity.
Qed.

End InitClientsProperties.

(** * [src/dataLoaders/dataUtils.py]: the split of the training set *)

Lemma py_slice_in_range {A} (l : list A) (a b : Z) :
  (0 <= a <= b)%Z -> (b <= Z.of_nat (length l))%Z ->
  DataUtils.py_slice l a b = take (Z.to_nat (b - a)) (drop (Z.to_nat a) l).
Proof.
  intros Hab Hb. unfold DataUtils.py_slice.
  destruct (Z.ltb_spec a 0) as [Hneg|_]; [lia|].
  destruct (Z.ltb_spec b 0) as [Hneg|_]; [lia|].
  rewrite !Z.min_l by lia. reflexivity.
Qed.

Lemma Zsum_nonneg (cs : list Z) :
  Forall (fun c => (0 <= c)%Z) cs -> (0 <= DataUtils.Zsum cs)%Z.
Proof.
  induction 1 as [|c cs Hc _ IH]; cbn [DataUtils.Zsum fold_right]; [lia|].
  fold (DataUtils.Zsum cs). lia.
Qed.

(** The sections cut at the running sums of non-negative counts that
    fit in the sequence: they are the sequence from the start point on,
    in order, the sections but the last have the counts as lengths, and
    the last has the rest. *)
Lemma pieces_from {A} (ary : list A) (cs : list Z) :
  forall a : Z,
  (0 <= a)%Z ->
  Forall (fun c => (0 <= c)%Z) cs ->
  (a + DataUtils.Zsum cs <= Z.of_nat (length ary))%Z ->
  let pieces := zip_with (DataUtils.py_slice ary) (a :: prefix_from a cs)
                  (prefix_from a cs ++ [Z.of_nat (length ary)]) in
  concat pieces = drop (Z.to_nat a) ary
  /\ map (fun piece => Z.of_nat (length piece)) pieces
     = cs ++ [(Z.of_nat (length ary) - a - DataUtils.Zsum cs)%Z].
Proof.
  induction cs as [|c cs IH]; intros a Ha Hcs Hfit.
  - cbn [prefix_from app zip_with]. cbn in Hfit. cbn [concat map DataUtils.Zsum fold_right].
    rewrite py_slice_in_range by lia.
    rewrite app_nil_r, Z.sub_0_r.
    assert (Hlen : length (drop (Z.to_nat a) ary)
                   = Z.to_nat (Z.of_nat (length ary) - a)).
    { rewrite length_drop. lia. }
    rewrite <- Hlen, firstn_all. split; [reflexivity|].
    rewrite Hlen. f_equal. lia.
  - inversion Hcs as [|? ? Hc Hcs']; subst. cbn [DataUtils.Zsum fold_right] in Hfit.
    fold (DataUtils.Zsum cs) in Hfit.
    pose proof (Zsum_nonneg cs Hcs') as Hsum.
    destruct (IH (a + c)%Z) as [Hconcat Hlens]; [lia|exact Hcs'|lia|].
    cbn zeta in Hconcat, Hlens.
    set (rest := zip_with (DataUtils.py_slice ary)
                   ((a + c)%Z :: prefix_from (a + c) cs)
                   (prefix_from (a + c) cs ++ [Z.of_nat (length ary)])) in *.
    change (concat (DataUtils.py_slice ary a (a + c) :: rest)
            = drop (Z.to_nat a) ary
            /\ map (fun piece => Z.of_nat (length piece))
                 (DataUtils.py_slice ary a (a + c) :: rest)
               = (c :: cs) ++ [(Z.of_nat (length ary) - a
                                - DataUtils.Zsum (c :: cs))%Z]).
    cbn [concat map].
    rewrite Hconcat, Hlens.
    rewrite py_slice_in_range by lia.
    replace (a + c - a)%Z with c by lia.
    split.
    + rewrite <- (take_drop (Z.to_nat c) (drop (Z.to_nat a) ary)) at 2.
      f_equal. rewrite drop_drop. f_equal. lia.
    + cbn [DataUtils.Zsum fold_right]. fold (DataUtils.Zsum cs).
      rewrite length_take, length_drop. cbn [app].
      f_equal; [lia|]. do 2 f_equal. lia.
Qed.

Lemma prefix_sums_from (cs : list Z) :
  forall (a : Z) (m : nat),
  (m <= length cs)%nat ->
  map (fun i => (a + DataUtils.Zsum (take i cs))%Z) (seq 1 m)
  = prefix_from a (take m cs).
Proof.
  induction cs as [|c cs IH]; intros a m Hm.
  - cbn in Hm. replace m with 0%nat by lia. reflexivity.
  - destruct m as [|m]; [reflexivity|]. cbn [seq map take prefix_from].
    cbn [DataUtils.Zsum fold_right take]. rewrite take_0. cbn [fold_right].
    rewrite Z.add_0_r. f_equal.
    cbn in Hm. rewrite <- (IH (a + c)%Z m) by lia.
    rewrite <- seq_shift, map_map. apply map_ext. intros i.
    cbn [take DataUtils.Zsum fold_right]. fold (DataUtils.Zsum (take i cs)). lia.
Qed.

Lemma Zsum_app (l1 l2 : list Z) :
  DataUtils.Zsum (l1 ++ l2) = (DataUtils.Zsum l1 + DataUtils.Zsum l2)%Z.
Proof.
  unfold DataUtils.Zsum. induction l1 as [|x l1 IH]; cbn; [reflexivity|].
  rewrite IH. lia.
Qed.

Lemma Qsum_scaled (ps : list Q) (t n : Q) :
  (Qsum (map (fun q => q / t * n) ps) == Qsum ps / t * n)%Q.
Proof.
  unfold Qsum. induction ps as [|q ps IH]; cbn.
  - unfold Qdiv. ring.
  - rewrite IH. unfold Qdiv. ring.
Qed.

Lemma floor_sum_le (xs : list Q) :
  (inject_Z (DataUtils.Zsum (map Qfloor xs)) <= Qsum xs)%Q.
Proof.
  unfold Qsum, DataUtils.Zsum. induction xs as [|x xs IH]; cbn.
  - apply Qle_refl.
  - rewrite inject_Z_plus. pose proof (Qfloor_le x). lra.
Qed.

Lemma dataSplitCount_nonneg (percUsers : list Q) (len : nat) :
  Forall (fun q => (0 <= q)%Q) percUsers ->
  (0 < Qsum percUsers)%Q ->
  Forall (fun c => (0 <= c)%Z) (DataUtils.dataSplitCount percUsers len).
Proof.
  intros Hnn Hpos. unfold DataUtils.dataSplitCount. rewrite Forall_map.
  eapply Forall_impl; [exact Hnn|]. intros q Hq. cbv beta.
  change 0%Z with (Qfloor 0). apply Qfloor_resp_le.
  apply Qmult_le_0_compat.
  - unfold Qdiv. apply Qmult_le_0_compat; [exact Hq|].
    apply Qlt_le_weak, Qinv_lt_0_compat, Hpos.
  - change 0%Q with (inject_Z 0). rewrite <- Zle_Qle. lia.
Qed.

Lemma dataSplitCount_sum (percUsers : list Q) (len : nat) :
  (0 < Qsum percUsers)%Q ->
  (DataUtils.Zsum (DataUtils.dataSplitCount percUsers len) <= Z.of_nat len)%Z.
Proof.
  intros Hpos. rewrite Zle_Qle. unfold DataUtils.dataSplitCount.
  rewrite <- (map_map (fun q => q / Qsum percUsers * inject_Z (Z.of_nat len))%Q Qfloor).
  eapply Qle_trans; [apply floor_sum_le|].
  rewrite Qsum_scaled. unfold Qdiv.
  rewrite Qmult_inv_r by lra. lra.
Qed.

(** The frames that [_splitTrainDataIntoClientDatasets] hands to
    [DatasetType]: one per user, together the training frame in its
    order; each but the last has the floor of its user's share of the
    rows, the last has the rest. *)
Lemma split_frames {Row} (percUsers : list Q) (trainDataframe : list Row) :
  Forall (fun q => (0 <= q)%Q) percUsers ->
  (0 < Qsum percUsers)%Q ->
  let counts := DataUtils.dataSplitCount percUsers (length trainDataframe) in
  exists dataSplitIndex,
    map (fun i => DataUtils.Zsum (take i counts)) (seq 0 (length counts))
    = 0%Z :: dataSplitIndex
    /\ length (DataUtils.np_split trainDataframe dataSplitIndex) = length percUsers
    /\ concat (DataUtils.np_split trainDataframe dataSplitIndex) = trainDataframe
    /\ map (fun piece => Z.of_nat (length piece))
         (DataUtils.np_split trainDataframe dataSplitIndex)
       = take (length percUsers - 1) counts
         ++ [(Z.of_nat (length trainDataframe)
              - DataUtils.Zsum (take (length percUsers - 1) counts))%Z].
Proof.
  intros Hnn Hpos counts.
  assert (Hlen : length counts = length percUsers).
  { unfold counts, DataUtils.dataSplitCount. apply length_map. }
  destruct (length percUsers) as [|m] eqn:Ek.
  { destruct percUsers; [|discriminate]. cbn in Hpos. lra. }
  rewrite Hlen. replace (S m - 1)%nat with m by lia.
  exists (prefix_from 0 (take m counts)).
  assert (Hidx : map (fun i => DataUtils.Zsum (take i counts)) (seq 1 m)
                 = prefix_from 0 (take m counts)).
  { rewrite <- prefix_sums_from by lia. apply map_ext. intros i. lia. }
  pose proof (dataSplitCount_nonneg percUsers (length trainDataframe) Hnn Hpos) as Hc.
  pose proof (dataSplitCount_sum percUsers (length trainDataframe) Hpos) as Hs.
  fold counts in Hc, Hs.
  assert (Hfit : (0 + DataUtils.Zsum (take m counts)
                  <= Z.of_nat (length trainDataframe))%Z).
  { rewrite <- (take_drop m counts), Zsum_app in Hs.
    pose proof (Zsum_nonneg (drop m counts) (Forall_drop _ m _ Hc)). lia. }
  destruct (pieces_from trainDataframe (take m counts) 0%Z)
    as [Hconcat Hlens]; [lia|now apply Forall_take|exact Hfit|].
  cbn zeta in Hconcat, Hlens. unfold DataUtils.np_split.
  split; [|split; [|split]].
  - cbn [seq map]. rewrite take_0. f_equal. exact Hidx.
  - apply (f_equal length) in Hlens.
    rewrite length_map, length_app, length_take in Hlens. cbn [length] in Hlens.
    rewrite Hlens. lia.
  - rewrite Hconcat. reflexivity.
  - rewrite Hlens. do 2 f_equal. lia.
Qed.

(** X14. For non-negative [percUsers] with a positive sum,
    [_splitTrainDataIntoClientDatasets] builds [DatasetType] on one
    frame per user, in order, and returns the datasets or raises what
    the first failing construction raises; the frames are consecutive
    sections of the training frame and together all of it, in its
    order: no row is lost, repeated or moved. *)
Theorem split_partitions_training_frame {Row DS}
    (DatasetType : list Row -> exn + DS)
    (percUsers : list Q) (trainDataframe : list Row) :
  Forall (fun q => (0 <= q)%Q) percUsers ->
  (0 < Qsum percUsers)%Q ->
  exists trainDataframes,
    DataUtils._splitTrainDataIntoClientDatasets DatasetType percUsers trainDataframe
    = match mapE DatasetType trainDataframes with
      | inl e => inl (DataUtils.Raised e)
      | inr clientDatasets => inr clientDatasets
      end
    /\ length trainDataframes = length percUsers
    /\ concat trainDataframes = trainDataframe.
Proof.
  intros Hnn Hpos.
  destruct (split_frames percUsers trainDataframe Hnn Hpos)
    as (idx & Hidx & Hlen & Hconcat & _).
  cbv zeta in Hidx.
  exists (DataUtils.np_split trainDataframe idx).
  split; [|split].
  - unfold DataUtils._splitTrainDataIntoClientDatasets. cbv zeta.
    rewrite Hidx. reflexivity.
  - exact Hlen.
  - exact Hconcat.
Qed.

Lemma mapE_inl {E A B} (f : A -> E + B) (l : list A) (e : E) :
  mapE f l = inl e -> exists x, In x l /\ f x = inl e.
Proof.
  induction l as [|x l IH]; cbn; [discriminate|].
  destruct (f x) as [e'|y] eqn:Ex.
  - intros [= <-]. exists x. auto.
  - destruct (mapE f l) as [e'|ys]; [|discriminate].
    intros [= <-]. destruct (IH eq_refl) as (x' & Hin & Hx'). exists x'. auto.
Qed.

Lemma new_MNISTDataset_inr (dataframe : list (list Q * Z)) d :
  DataUtils.new_MNISTDataset dataframe = inr d ->
  dataframe <> []
  /\ d = DataUtils.mkMNISTDataset (map fst dataframe) (map snd dataframe).
Proof.
  unfold DataUtils.new_MNISTDataset. destruct dataframe as [|row rows]; [discriminate|].
  destruct (forallb _ rows); [|discriminate].
  intros [= <-]. split; [discriminate|reflexivity].
Qed.

Lemma new_MNISTDataset_inl (dataframe : list (list Q * Z)) e :
  DataUtils.new_MNISTDataset dataframe = inl e -> e = RuntimeError.
Proof.
  unfold DataUtils.new_MNISTDataset. destruct dataframe as [|row rows]; [congruence|].
  destruct (forallb _ rows); congruence.
Qed.

Lemma filtered_labels_allowed (labels : list Z) (rows : list (list Q * Z)) :
  Forall (fun row => In (snd row) labels)
    (List.filter (fun row => existsb (Z.eqb (snd row)) labels) rows).
Proof.
  apply List.Forall_forall. intros row Hrow.
  apply filter_In in Hrow as [_ Hrow].
  apply existsb_exists in Hrow as (l & Hl & Heq).
  apply Z.eqb_eq in Heq. now rewrite Heq.
Qed.

(** What [getDatasets] has computed when it returns, for non-negative
    [percUsers] with a positive sum: the frames of the split, and the
    datasets built on them. *)
Lemma getDatasets_inr loaded percUsers labels clientsDatasets testDataset :
  Forall (fun q => (0 <= q)%Q) percUsers ->
  (0 < Qsum percUsers)%Q ->
  DataUtils.getDatasets loaded percUsers labels = inr (clientsDatasets, testDataset) ->
  let frames := DataUtils._filterDataByLabel labels (fst loaded) (snd loaded) in
  let counts := DataUtils.dataSplitCount percUsers (length (fst frames)) in
  exists trainDataframes,
    Forall2 (fun frame d => DataUtils.new_MNISTDataset frame = inr d)
      trainDataframes clientsDatasets
    /\ DataUtils.new_MNISTDataset (snd frames) = inr testDataset
    /\ length trainDataframes = length percUsers
    /\ concat trainDataframes = fst frames
    /\ map (fun piece => Z.of_nat (length piece)) trainDataframes
       = take (length percUsers - 1) counts
         ++ [(Z.of_nat (length (fst frames))
              - DataUtils.Zsum (take (length percUsers - 1) counts))%Z].
Proof.
  intros Hnn Hpos H frames counts.
  destruct (split_frames percUsers (fst frames) Hnn Hpos)
    as (idx & Hidx & Hlen & Hconcat & Hsizes).
  cbv zeta in Hidx, Hsizes.
  unfold DataUtils.getDatasets, DataUtils._splitTrainDataIntoClientDatasets in H.
  cbv zeta in H. fold frames in H. rewrite Hidx in H.
  destruct (mapE DataUtils.new_MNISTDataset (DataUtils.np_split (fst frames) idx))
    as [e|ds] eqn:Em; [discriminate|].
  destruct (DataUtils.new_MNISTDataset (snd frames)) as [e|t] eqn:Et; [discriminate|].
  injection H as <- <-.
  exists (DataUtils.np_split (fst frames) idx).
  apply mapE_inr in Em. auto.
Qed.

(** X15. When [DatasetLoaderMNIST.getDatasets] returns, for
    non-negative [percUsers] with a positive sum: there is one client
    dataset per user; the client datasets are, in order and without loss
    or repetition, the training rows whose label is in [labels], and the
    test dataset is the test rows whose label is in [labels]; every
    dataset has at least one row, as many labels as data rows, and only
    labels of [labels]. *)
Theorem getDatasets_returns loaded percUsers labels clientsDatasets testDataset :
  Forall (fun q => (0 <= q)%Q) percUsers ->
  (0 < Qsum percUsers)%Q ->
  DataUtils.getDatasets loaded percUsers labels = inr (clientsDatasets, testDataset) ->
  let allowed (row : list Q * Z) := existsb (Z.eqb (snd row)) labels in
  length clientsDatasets = length percUsers
  /\ concat (map DataUtils.data clientsDatasets)
     = map fst (List.filter allowed (fst loaded))
  /\ concat (map DataUtils.labels clientsDatasets)
     = map snd (List.filter allowed (fst loaded))
  /\ DataUtils.data testDataset = map fst (List.filter allowed (snd loaded))
  /\ DataUtils.labels testDataset = map snd (List.filter allowed (snd loaded))
  /\ Forall (fun d => DataUtils.labels d <> []
                      /\ length (DataUtils.data d) = length (DataUtils.labels d)
                      /\ Forall (fun l => In l labels) (DataUtils.labels d))
       (testDataset :: clientsDatasets).
Proof.
  intros Hnn Hpos H allowed.
  destruct (getDatasets_inr _ _ _ _ _ Hnn Hpos H)
    as (pieces & Hds & Ht & Hlen & Hconcat & _).
  cbn [DataUtils._filterDataByLabel fst snd] in Ht, Hconcat. fold allowed in Ht, Hconcat.
  assert (Hbuilt : clientsDatasets
                   = map (fun frame => DataUtils.mkMNISTDataset (map fst frame)
                                         (map snd frame)) pieces).
  { apply Forall2_eq_map. eapply Forall2_impl; [exact Hds|].
    intros frame d Hd. now apply new_MNISTDataset_inr in Hd as [_ ->]. }
  apply new_MNISTDataset_inr in Ht as [Htne ->].
  split; [|split; [|split; [|split; [|split]]]].
  - apply Forall2_length in Hds. lia.
  - rewrite Hbuilt, map_map. cbn [DataUtils.data].
    rewrite <- Hconcat, concat_map. reflexivity.
  - rewrite Hbuilt, map_map. cbn [DataUtils.labels].
    rewrite <- Hconcat, concat_map. reflexivity.
  - reflexivity.
  - reflexivity.
  - constructor.
    + cbn [DataUtils.data DataUtils.labels]. split; [|split].
      * destruct (List.filter allowed (snd loaded)); [congruence|discriminate].
      * now rewrite !length_map.
      * rewrite Forall_map. apply filtered_labels_allowed.
    + pose proof (filtered_labels_allowed labels (fst loaded)) as Hall.
      fold allowed in Hall. rewrite <- Hconcat in Hall.
      apply Forall_concat in Hall.
      eapply Forall2_Forall_r; [exact Hds|].
      eapply Forall_impl; [exact Hall|].
      intros frame Hframe d Hd. apply new_MNISTDataset_inr in Hd as [Hne ->].
      cbn [DataUtils.data DataUtils.labels]. split; [|split].
      * destruct frame; [congruence|discriminate].
      * now rewrite !length_map.
      * rewrite Forall_map. exact Hframe.
Qed.

Lemma concat_nonempty_length {A} (ls : list (list A)) :
  Forall (fun l => l <> []) ls -> (length ls <= length (concat ls))%nat.
Proof.
  induction 1 as [|l ls Hl _ IH]; cbn [concat length]; [lia|].
  rewrite length_app. destruct l; [congruence|cbn; lia].
Qed.

(** X16. For non-negative [percUsers] with a positive sum, the only
    exception that [DatasetLoaderMNIST.getDatasets] raises is the
    [RuntimeError] of [torch.stack], and it does raise it when there are
    fewer training rows with a label of [labels] than users, and when no
    test row has a label of [labels]. *)
Theorem getDatasets_errors loaded percUsers labels :
  Forall (fun q => (0 <= q)%Q) percUsers ->
  (0 < Qsum percUsers)%Q ->
  let frames := DataUtils._filterDataByLabel labels (fst loaded) (snd loaded) in
  (forall e, DataUtils.getDatasets loaded percUsers labels = inl e ->
             e = DataUtils.Raised RuntimeError)
  /\ ((length (fst frames) < length percUsers)%nat ->
      DataUtils.getDatasets loaded percUsers labels
      = inl (DataUtils.Raised RuntimeError))
  /\ (snd frames = [] ->
      DataUtils.getDatasets loaded percUsers labels
      = inl (DataUtils.Raised RuntimeError)).
Proof.
  intros Hnn Hpos frames.
  assert (Herr : forall e, DataUtils.getDatasets loaded percUsers labels = inl e ->
                           e = DataUtils.Raised RuntimeError).
  { intros e H.
    destruct (split_frames percUsers (fst frames) Hnn Hpos) as (idx & Hidx & _).
    cbv zeta in Hidx.
    unfold DataUtils.getDatasets, DataUtils._splitTrainDataIntoClientDatasets in H.
    cbv zeta in H. fold frames in H. rewrite Hidx in H.
    destruct (mapE DataUtils.new_MNISTDataset (DataUtils.np_split (fst frames) idx))
      as [e'|ds] eqn:Em.
    - injection H as <-. apply mapE_inl in Em as (frame & _ & Hf).
      now apply new_MNISTDataset_inl in Hf as ->.
    - destruct (DataUtils.new_MNISTDataset (snd frames)) as [e'|t] eqn:Et; [|discriminate].
      injection H as <-. now apply new_MNISTDataset_inl in Et as ->. }
  split; [exact Herr|]. split.
  - intros Hfew.
    destruct (DataUtils.getDatasets loaded percUsers labels) as [e|[ds t]] eqn:Eg.
    + now rewrite (Herr e eq_refl).
    + exfalso.
      destruct (getDatasets_inr _ _ _ _ _ Hnn Hpos Eg)
        as (pieces & Hds & _ & Hlen & Hconcat & _).
      fold frames in Hconcat.
      assert (Hne : Forall (fun l => l <> []) pieces).
      { eapply Forall2_Forall_l; [exact Hds|].
        apply Forall_forall. intros d _ frame Hd.
        now apply new_MNISTDataset_inr in Hd as [Hne _]. }
      apply concat_nonempty_length in Hne. rewrite Hconcat in Hne. lia.
  - intros Hempty.
    destruct (DataUtils.getDatasets loaded percUsers labels) as [e|[ds t]] eqn:Eg.
    + now rewrite (Herr e eq_refl).
    + exfalso.
      destruct (getDatasets_inr _ _ _ _ _ Hnn Hpos Eg) as (pieces & _ & Ht & _).
      fold frames in Ht. rewrite Hempty in Ht. discriminate.
Qed.

(** * [src/main.py]: from the loaded datasets to the clients *)

Section ExperimentClients.
Variable new_client : nat -> list Z -> Q -> Main.Client.

Lemma weigh_clients (built : list Main.Client) :
  mapE (fun client =>
          match true_div (Main.n client) (sum_list (map Main.n built)) with
          | inl e => inl e
          | inr w => inr (Main.set_p client w)
          end) built
  = if (sum_list (map Main.n built) =? 0)%nat
    then match built with [] => inr [] | _ :: _ => inl ZeroDivisionError end
    else inr (map (fun b => Main.set_p b (weight_of (sum_list (map Main.n built))
                                            (Main.n b))) built).
Proof.
  generalize (sum_list (map Main.n built)) as nTrain. intros nTrain.
  destruct (Nat.eqb_spec nTrain 0) as [->|Hn].
  - destruct built as [|b built]; reflexivity.
  - apply mapE_inr. apply Forall2_fmap_r, Forall_Forall2_diag, Forall_forall.
    intros b _. unfold true_div, weight_of.
    destruct (Nat.eqb_spec nTrain 0) as [E|_]; [contradiction|reflexivity].
Qed.

(** X17. The first two statements of [__runExperiment] with the MNIST
    loader: on the client datasets that [getDatasets] returns for
    [percUsers], [__initClients] never raises [IndexError]: it
    constructs one client per dataset, and either raises
    [ZeroDivisionError], when the constructed clients report no training
    point at all, or returns the constructed clients, reweighted and
    marked. *)
Theorem clients_of_loaded_datasets loaded percUsers labels clientsDatasets testDataset
    faulty malicious freeRiding :
  Forall (fun q => (0 <= q)%Q) percUsers ->
  (0 < Qsum percUsers)%Q ->
  DataUtils.getDatasets loaded percUsers labels = inr (clientsDatasets, testDataset) ->
  let trainDatasets := map DataUtils.labels clientsDatasets in
  let built := imap (fun i ds => new_client i ds (weight_of (length percUsers) 1))
                 trainDatasets in
  let nTrain := sum_list (map Main.n built) in
  length built = length percUsers
  /\ Main.__initClients new_client (length percUsers) trainDatasets
       faulty malicious freeRiding
     = if (nTrain =? 0)%nat then inl ZeroDivisionError
       else inr (map (fun b => Main.mark faulty malicious freeRiding
                                 (Main.set_p b (weight_of nTrain (Main.n b)))) built).
Proof.
  intros Hnn Hpos H trainDatasets built nTrain.
  destruct (getDatasets_inr _ _ _ _ _ Hnn Hpos H) as (pieces & Hds & _ & Hlen & _).
  assert (Hk : length trainDatasets = length percUsers).
  { unfold trainDatasets. rewrite length_map.
    apply Forall2_length in Hds. lia. }
  assert (Hpos' : (0 < length percUsers)%nat).
  { destruct percUsers; [cbn in Hpos; lra|cbn; lia]. }
  split.
  - unfold built. now rewrite length_imap.
  - unfold Main.__initClients, true_div at 1.
    destruct (Nat.eqb_spec (length percUsers) 0) as [E|_]; [lia|].
    fold (weight_of (length percUsers) 1). change (Z.of_nat 1) with 1%Z.
    rewrite (built_clients new_client (length percUsers) trainDatasets) by lia.
    rewrite take_ge by lia. fold built. cbv zeta. fold nTrain.
    unfold nTrain at 1 2. rewrite weigh_clients. fold nTrain.
    destruct (Nat.eqb_spec nTrain 0) as [Hz|Hnz].
    + destruct built as [|b built'] eqn:Eb; [|reflexivity].
      apply (f_equal length) in Eb. unfold built in Eb. rewrite length_imap in Eb.
      cbn in Eb. lia.
    + rewrite map_map. reflexivity.
Qed.

End ExperimentClients.

(** * The further properties on concrete runs *)

Lemma assignment_step_records_choices_witness :
  deref (cluster_centres two_clients_clustered) two_clients_clustered
    = Ok [5; 5; 5]%Q two_clients_clustered
  /\ exists self',
       assignment_step [5; -6]%Q two_clients_clustered = Ok tt self'
       /\ cluster_choices self' !! 1%nat = Some (choose_cluster (-6) [5; 5; 5]%Q)
       /\ same_but_choices two_clients_clustered self'.
Proof.
  assert (H : deref (cluster_centres two_clients_clustered) two_clients_clustered
              = Ok [5; 5; 5]%Q two_clients_clustered) by reflexivity.
  split; [exact H|].
  destruct (assignment_step_records_choices [5; -6]%Q two_clients_clustered
              [5; 5; 5]%Q H) as (self' & Hrun & _ & Hset & _ & Hsame).
  exists self'. split; [exact Hrun|]. split; [|exact Hsame].
  apply (Hset 1%nat); [cbn; lia|reflexivity].
Defined.

Lemma clustering_outcomes_witness :
  _init_cluster_centres mean_aggregate (randint_const 1)
    (_generate_weights (two_models (-1 # 1000000000) (1 # 1000000000)))
    (two_models (-1 # 1000000000) (1 # 1000000000)) two_clients
    = Ok tt two_clients_tiny
  /\ deref (cluster_centres two_clients_tiny) two_clients_tiny
     = Ok [1 # 1000000000; 1 # 1000000000; 1 # 1000000000] two_clients_tiny
  /\ (1 <= 100)%nat
  /\ (clustering mean_aggregate (randint_const 1) 100
        (two_models (-1 # 1000000000) (1 # 1000000000)) two_clients
      = Ok tt two_clients_tiny
      \/ exists self2,
           clustering mean_aggregate (randint_const 1) 100
             (two_models (-1 # 1000000000) (1 # 1000000000)) two_clients
           = Raise TypeError self2
           /\ same_but_choices two_clients_tiny self2).
Proof.
  assert (H1 : _init_cluster_centres mean_aggregate (randint_const 1)
                 (_generate_weights (two_models (-1 # 1000000000) (1 # 1000000000)))
                 (two_models (-1 # 1000000000) (1 # 1000000000)) two_clients
               = Ok tt two_clients_tiny) by (vm_compute; reflexivity).
  assert (H2 : deref (cluster_centres two_clients_tiny) two_clients_tiny
               = Ok [1 # 1000000000; 1 # 1000000000; 1 # 1000000000]
                   two_clients_tiny) by reflexivity.
  assert (H3 : (1 <= 100)%nat) by lia.
  split; [exact H1|]. split; [exact H2|]. split; [exact H3|].
  destruct (clustering_outcomes mean_aggregate (randint_const 1) 100
              (two_models (-1 # 1000000000) (1 # 1000000000)) two_clients
              two_clients_tiny [1 # 1000000000; 1 # 1000000000; 1 # 1000000000]
              H1 H2 H3) as [Hret|(self2 & Hrun & _ & Hsame)].
  - left. exact Hret.
  - right. exists self2. split; [exact Hrun|exact Hsame].
Defined.

Lemma clustering_returns_without_reassigning_witness :
  clustering mean_aggregate (randint_const 0) 100 (two_models 5 6) two_clients
    = Ok tt two_clients_clustered
  /\ _init_cluster_centres mean_aggregate (randint_const 0)
       (_generate_weights (two_models 5 6)) (two_models 5 6) two_clients
     = Ok tt two_clients_clustered
  /\ cluster_choices two_clients_clustered = cluster_choices two_clients.
Proof.
  assert (H : clustering mean_aggregate (randint_const 0) 100 (two_models 5 6)
                two_clients = Ok tt two_clients_clustered)
    by (vm_compute; reflexivity).
  split; [exact H|].
  destruct (clustering_returns_without_reassigning mean_aggregate (randint_const 0)
              100 (two_models 5 6) two_clients two_clients_clustered H)
    as (Hinit & Hc & _).
  split; [exact Hinit|exact Hc].
Defined.

Lemma reachable_choices_all_zero_witness :
  reachable mean_aggregate weighted_merge (randint_const 0) two_clients_after_round
  /\ cluster_choices two_clients_after_round = [0; 0]%Z
  /\ cluster_sizes (cluster_choices two_clients_after_round)
       (cluster_count two_clients_after_round) = [2; 0; 0]%nat.
Proof.
  assert (Hr : reachable mean_aggregate weighted_merge (randint_const 0)
                 two_clients_after_round).
  { apply (reachable_round mean_aggregate weighted_merge (randint_const 0)
             two_clients 100 (two_models 5 6) two_clients_after_round).
    - apply reachable_init.
    - vm_compute. reflexivity. }
  split; [exact Hr|].
  destruct (reachable_choices_all_zero mean_aggregate weighted_merge
              (randint_const 0) two_clients_after_round Hr) as (_ & Hc & Hs).
  split; [exact Hc|exact Hs].
Defined.

Lemma completed_round_aggregates_first_model_witness :
  reachable mean_aggregate weighted_merge (randint_const 0) two_clients
  /\ trainAndTest_round mean_aggregate weighted_merge (randint_const 0) 100
       (two_models 5 6) two_clients = Ok tt two_clients_after_round
  /\ exists m1 c0 agg',
       dict_get (two_models 5 6) 1 = inr m1
       /\ py_index (clients two_clients) 0 = inr c0
       /\ mean_aggregate (externalAggregator two_clients)
            [mkClient (weight_of 2 2) 0; mkClient (weight_of 2 0) 1;
             mkClient (weight_of 2 0) 2]
            [merge_copies weighted_merge m1 (p c0) 2 (model two_clients) 0%Q;
             model two_clients; model two_clients]
          = inr (model two_clients_after_round, agg').
Proof.
  assert (Hr : reachable mean_aggregate weighted_merge (randint_const 0) two_clients)
    by apply reachable_init.
  assert (Hrun : trainAndTest_round mean_aggregate weighted_merge (randint_const 0)
                   100 (two_models 5 6) two_clients = Ok tt two_clients_after_round)
    by (vm_compute; reflexivity).
  split; [exact Hr|]. split; [exact Hrun|].
  destruct (completed_round_aggregates_first_model mean_aggregate weighted_merge
              (randint_const 0) two_clients two_clients_after_round 100
              (two_models 5 6) Hr Hrun)
    as (m1 & c0 & agg' & _ & Hm & Hc & Hagg & _).
  exists m1, c0, agg'. split; [exact Hm|]. split; [exact Hc|exact Hagg].
Defined.

Lemma gen_cluster_centre_lookup_errors_witness :
  Exists (fun i => py_index (clients two_clients_clustered) i = inl IndexError) [0; 5]%Z
  /\ _gen_cluster_centre mean_aggregate [0; 5]%Z (two_models 5 6) two_clients_clustered
     = Raise IndexError two_clients_clustered.
Proof.
  assert (H : Exists (fun i => py_index (clients two_clients_clustered) i
                               = inl IndexError) [0; 5]%Z)
    by (apply Exists_cons_tl, Exists_cons_hd; reflexivity).
  split; [exact H|].
  exact (proj1 (gen_cluster_centre_lookup_errors mean_aggregate [0; 5]%Z
                  (two_models 5 6) two_clients_clustered) H).
Defined.

Lemma first_clustering_needs_weights_witness :
  cluster_centres (one_client 5) = None
  /\ _generate_weights [(1%Z, mkModule [])] = []
  /\ clustering mean_aggregate (randint_const 0) 100 [(1%Z, mkModule [])] (one_client 5)
     = Raise RuntimeError (one_client 5)
  /\ trainAndTest mean_aggregate weighted_merge (randint_const 0) 100
       [[(1%Z, mkModule [])]; one_model 5] (one_client 5)
     = Raise RuntimeError (one_client 5).
Proof.
  assert (H1 : cluster_centres (one_client 5) = None) by reflexivity.
  assert (H2 : _generate_weights [(1%Z, mkModule [])] = []) by reflexivity.
  split; [exact H1|]. split; [exact H2|].
  exact (first_clustering_needs_weights mean_aggregate weighted_merge
           (randint_const 0) 100 [(1%Z, mkModule [])] [one_model 5] (one_client 5)
           H1 H2).
Defined.

Lemma reachable_centres_allocated_witness :
  (forall high size, length (randint_const 0 high size) = size)
  /\ reachable mean_aggregate weighted_merge (randint_const 0) two_clients_after_round
  /\ centres_allocated two_clients_after_round.
Proof.
  assert (Hd : forall high size, length (randint_const 0 high size) = size)
    by (intros high size; apply length_replicate).
  assert (Hr : reachable mean_aggregate weighted_merge (randint_const 0)
                 two_clients_after_round).
  { apply (reachable_round mean_aggregate weighted_merge (randint_const 0)
             two_clients 100 (two_models 5 6) two_clients_after_round).
    - apply reachable_init.
    - vm_compute. reflexivity. }
  split; [exact Hd|]. split; [exact Hr|].
  exact (reachable_centres_allocated mean_aggregate weighted_merge (randint_const 0)
           two_clients_after_round Hd Hr).
Defined.

Lemma initClients_weights_witness :
  Main.__initClients counting_client 2 [[0; 1]; [0; 1; 1]]%Z [0]%Z [1]%Z []
    = inr [Main.mkClient 0 2 (2 # 5) true false false [0; 1]%Z;
           Main.mkClient 1 3 (3 # 5) false true false [0; 0; 0]%Z]
  /\ Forall (fun c => true_div (Main.n c) 5 = inr (Main.p c))
       [Main.mkClient 0 2 (2 # 5) true false false [0; 1]%Z;
        Main.mkClient 1 3 (3 # 5) false true false [0; 0; 0]%Z].
Proof.
  assert (H : Main.__initClients counting_client 2 [[0; 1]; [0; 1; 1]]%Z [0]%Z [1]%Z []
              = inr [Main.mkClient 0 2 (2 # 5) true false false [0; 1]%Z;
                     Main.mkClient 1 3 (3 # 5) false true false [0; 0; 0]%Z])
    by (vm_compute; reflexivity).
  split; [exact H|].
  exact (proj2 (proj2 (initClients_weights counting_client 2 _ _ _ _ _ H))).
Defined.

Lemma initClients_errors_witness :
  (length [[0; 1]; [0; 1; 1]]%Z < 3)%nat
  /\ Main.__initClients counting_client 3 [[0; 1]; [0; 1; 1]]%Z [0]%Z [1]%Z []
     = inl IndexError.
Proof.
  assert (H : (length [[0; 1]; [0; 1; 1]]%Z < 3)%nat) by (cbn; lia).
  split; [exact H|].
  exact (proj1 (proj2 (initClients_errors counting_client 3 [[0; 1]; [0; 1; 1]]%Z
                         [0]%Z [1]%Z [])) H).
Defined.

Lemma initClients_marks_witness :
  Main.__initClients counting_client 2 [[0; 1]; [0; 1; 1]]%Z [0]%Z [1]%Z []
    = inr [Main.mkClient 0 2 (2 # 5) true false false [0; 1]%Z;
           Main.mkClient 1 3 (3 # 5) false true false [0; 0; 0]%Z]
  /\ exists ds,
       [[0; 1]; [0; 1; 1]]%Z !! 1%nat = Some ds
       /\ [0; 0; 0]%Z
          = (if Main.mem (Main.id (counting_client 1 ds (weight_of 2 1))) [1]%Z
             then replicate
                    (length (Main.trainDataset (counting_client 1 ds (weight_of 2 1))))
                    0%Z
             else Main.trainDataset (counting_client 1 ds (weight_of 2 1))).
Proof.
  assert (H : Main.__initClients counting_client 2 [[0; 1]; [0; 1; 1]]%Z [0]%Z [1]%Z []
              = inr [Main.mkClient 0 2 (2 # 5) true false false [0; 1]%Z;
                     Main.mkClient 1 3 (3 # 5) false true false [0; 0; 0]%Z])
    by (vm_compute; reflexivity).
  split; [exact H|].
  destruct (initClients_marks counting_client 2 _ _ _ _ _ H 1%nat _ eq_refl)
    as (ds & Hds & _ & _ & _ & _ & Hlabels & _).
  exists ds. split; [exact Hds|exact Hlabels].
Defined.

Lemma split_partitions_training_frame_witness :
  Forall (fun q => (0 <= q)%Q) [1; 2]%Q
  /\ (0 < Qsum [1; 2])%Q
  /\ exists trainDataframes,
       DataUtils._splitTrainDataIntoClientDatasets frame_itself [1; 2]%Q
         [1; 2; 3; 4; 5]%nat
       = match mapE frame_itself trainDataframes with
         | inl e => inl (DataUtils.Raised e)
         | inr clientDatasets => inr clientDatasets
         end
       /\ length trainDataframes = 2%nat
       /\ concat trainDataframes = [1; 2; 3; 4; 5]%nat.
Proof.
  assert (H1 : Forall (fun q => (0 <= q)%Q) [1; 2]%Q)
    by (repeat (constructor; [vm_compute; discriminate|]); constructor).
  assert (H2 : (0 < Qsum [1; 2])%Q) by reflexivity.
  split; [exact H1|]. split; [exact H2|].
  destruct (split_partitions_training_frame frame_itself [1; 2]%Q [1; 2; 3; 4; 5]%nat
              H1 H2) as (frames & Hrun & Hlen & Hconcat).
  exists frames. split; [exact Hrun|]. split; [exact Hlen|exact Hconcat].
Defined.

Lemma getDatasets_returns_witness :
  Forall (fun q => (0 <= q)%Q) [1; 2]%Q
  /\ (0 < Qsum [1; 2])%Q
  /\ DataUtils.getDatasets loaded_frames [1; 2]%Q [0; 1]%Z
     = inr ([DataUtils.mkMNISTDataset [[1%Q]] [0%Z];
             DataUtils.mkMNISTDataset [[2%Q]; [4%Q]; [5%Q]] [1; 0; 1]%Z],
            DataUtils.mkMNISTDataset [[6%Q]] [1%Z])
  /\ concat (map DataUtils.labels
               [DataUtils.mkMNISTDataset [[1%Q]] [0%Z];
                DataUtils.mkMNISTDataset [[2%Q]; [4%Q]; [5%Q]] [1; 0; 1]%Z])
     = map snd (List.filter (fun row => existsb (Z.eqb (snd row)) [0; 1]%Z)
                  (fst loaded_frames)).
Proof.
  assert (H1 : Forall (fun q => (0 <= q)%Q) [1; 2]%Q)
    by (repeat (constructor; [vm_compute; discriminate|]); constructor).
  assert (H2 : (0 < Qsum [1; 2])%Q) by reflexivity.
  assert (H3 : DataUtils.getDatasets loaded_frames [1; 2]%Q [0; 1]%Z
               = inr ([DataUtils.mkMNISTDataset [[1%Q]] [0%Z];
                       DataUtils.mkMNISTDataset [[2%Q]; [4%Q]; [5%Q]] [1; 0; 1]%Z],
                      DataUtils.mkMNISTDataset [[6%Q]] [1%Z]))
    by (vm_compute; reflexivity).
  split; [exact H1|]. split; [exact H2|]. split; [exact H3|].
  exact (proj1 (proj2 (proj2 (getDatasets_returns loaded_frames [1; 2]%Q [0; 1]%Z
                                _ _ H1 H2 H3)))).
Defined.

Lemma getDatasets_errors_witness :
  Forall (fun q => (0 <= q)%Q) [1; 2]%Q
  /\ (0 < Qsum [1; 2])%Q
  /\ (length (fst (DataUtils._filterDataByLabel [7]%Z (fst loaded_frames)
                     (snd loaded_frames))) < length [1; 2]%Q)%nat
  /\ DataUtils.getDatasets loaded_frames [1; 2]%Q [7]%Z
     = inl (DataUtils.Raised RuntimeError).
Proof.
  assert (H1 : Forall (fun q => (0 <= q)%Q) [1; 2]%Q)
    by (repeat (constructor; [vm_compute; discriminate|]); constructor).
  assert (H2 : (0 < Qsum [1; 2])%Q) by reflexivity.
  assert (H3 : (length (fst (DataUtils._filterDataByLabel [7]%Z (fst loaded_frames)
                               (snd loaded_frames))) < length [1; 2]%Q)%nat)
    by (cbn; lia).
  split; [exact H1|]. split; [exact H2|]. split; [exact H3|].
  exact (proj1 (proj2 (getDatasets_errors loaded_frames [1; 2]%Q [7]%Z H1 H2)) H3).
Defined.

Lemma clients_of_loaded_datasets_witness :
  Forall (fun q => (0 <= q)%Q) [1; 2]%Q
  /\ (0 < Qsum [1; 2])%Q
  /\ DataUtils.getDatasets loaded_frames [1; 2]%Q [0; 1]%Z
     = inr ([DataUtils.mkMNISTDataset [[1%Q]] [0%Z];
             DataUtils.mkMNISTDataset [[2%Q]; [4%Q]; [5%Q]] [1; 0; 1]%Z],
            DataUtils.mkMNISTDataset [[6%Q]] [1%Z])
  /\ Main.__initClients counting_client 2 [[0]; [1; 0; 1]]%Z [0]%Z [1]%Z []
     <> inl IndexError.
Proof.
  assert (H1 : Forall (fun q => (0 <= q)%Q) [1; 2]%Q)
    by (repeat (constructor; [vm_compute; discriminate|]); constructor).
  assert (H2 : (0 < Qsum [1; 2])%Q) by reflexivity.
  assert (H3 : DataUtils.getDatasets loaded_frames [1; 2]%Q [0; 1]%Z
               = inr ([DataUtils.mkMNISTDataset [[1%Q]] [0%Z];
                       DataUtils.mkMNISTDataset [[2%Q]; [4%Q]; [5%Q]] [1; 0; 1]%Z],
                      DataUtils.mkMNISTDataset [[6%Q]] [1%Z]))
    by (vm_compute; reflexivity).
  split; [exact H1|]. split; [exact H2|]. split; [exact H3|].
  destruct (clients_of_loaded_datasets counting_client loaded_frames [1; 2]%Q [0; 1]%Z
              _ _ [0]%Z [1]%Z [] H1 H2 H3) as [_ Hrun].
  cbv zeta in Hrun. cbn [map DataUtils.labels length] in Hrun.
  rewrite Hrun. discriminate.
Defined.
